(** * ICD-AutoCoder: the knowledge-graph viewer

    A shallow embedding of [frontend/src/components/GraphViewer.jsx] (the
    version with the force-directed layout): the graph construction done in
    the body of the [GraphViewer] component and the layout function
    [calculateNodePositions].

    JavaScript numbers are IEEE-754 binary64 values and are modelled by
    Rocq's primitive floats, so that every arithmetic step of the source can
    be evaluated.  JavaScript objects used as dictionaries ([positions],
    [forces], [degrees]) are finite maps keyed by property name.  A missing
    field ([undefined]) is [None].  A [TypeError] raised by reading a property
    of [undefined] is the error case of the [result] type. *)

From Stdlib Require Import ZArith Ascii String Floats Uint63.
From stdpp Require Import gmap strings list fin_maps.

Set Warnings "-inexact-float,-clear-no-such-hyp".
Local Open Scope string_scope.
Local Open Scope list_scope.

(** ** Outcomes of fallible code *)

Inductive result (A : Type) : Type :=
  | Ok (a : A)
  | TypeError.
Arguments Ok {A} a.
Arguments TypeError {A}.

#[global] Instance result_ret : MRet result := fun A a => Ok a.
#[global] Instance result_bind : MBind result := fun A B k r =>
  match r with
  | Ok a => k a
  | TypeError => TypeError
  end.

(** [forEach] with a body that may throw: the accumulator is the mutable
    state the callback closes over. *)
Fixpoint forEachM {A S : Type} (body : S → A → result S) (l : list A) (s : S)
  : result S :=
  match l with
  | [] => Ok s
  | a :: l' => s' ← body s a ; forEachM body l' s'
  end.

(** ** Strings *)

(** [s.split(sep)] for a one-character separator. *)
Fixpoint split (sep : ascii) (s : string) : list string :=
  match s with
  | EmptyString => [EmptyString]
  | String c s' =>
      if Ascii.eqb c sep then EmptyString :: split sep s'
      else match split sep s' with
           | [] => [String c EmptyString]
           | h :: t => String c h :: t
           end
  end.

(** [parts.join(sep)] *)
Definition join (sep : string) (parts : list string) : string :=
  String.concat sep parts.

(** [s.startsWith(p)] *)
Definition startsWith (s p : string) : bool := String.prefix p s.

(** [s.includes(p)] *)
Fixpoint includes (s p : string) : bool :=
  String.prefix p s ||
  match s with
  | EmptyString => false
  | String _ s' => includes s' p
  end.

(** Property key of a value that is a string or [undefined]. *)
Definition key_of (v : option string) : string :=
  match v with
  | Some s => s
  | None => "undefined"
  end.

(** Strict equality [===] on values that are strings or [undefined]. *)
Definition strict_eq (a b : option string) : bool := bool_decide (a = b).

(** ** Numbers *)

(** Truthiness of a number: [0], [-0] and [NaN] are falsy. *)
Definition truthy (x : float) : bool := negb (PrimFloat.is_zero x || is_nan x).

(** [x || d] for numbers. *)
Definition or_default (x d : float) : float := if truthy x then x else d.

(** [v || d] where [v] is a number or [undefined]. *)
Definition opt_or_default (v : option float) (d : float) : float :=
  match v with
  | Some x => or_default x d
  | None => d
  end.

(** [Math.max(a, b)] and [Math.min(a, b)]: [NaN] if either argument is
    [NaN]; [+0] is larger than [-0]. *)
Definition Math_max (a b : float) : float :=
  if is_nan a || is_nan b then nan
  else if PrimFloat.ltb a b then b
  else if PrimFloat.ltb b a then a
  else if PrimFloat.get_sign a then b else a.

Definition Math_min (a b : float) : float :=
  if is_nan a || is_nan b then nan
  else if PrimFloat.ltb a b then a
  else if PrimFloat.ltb b a then b
  else if PrimFloat.get_sign a then a else b.

(** An array length or index as a number. *)
Definition of_nat (n : nat) : float :=
  PrimFloat.of_uint63 (Uint63.of_Z (Z.of_nat n)).

(** ** Data model *)

Record Node := {
  node_id : option string;
  node_label : option string;
  node_type : option string;
  node_level : option nat;
  node_probability : option float
}.

Record Edge := {
  edge_source : option string;
  edge_target : option string;
  edge_type : option string;
  edge_weight : option float
}.

Record Pred := {
  pred_code : string;
  pred_description : option string;
  pred_probability : float
}.

(** [Object.entries] of the [entities] object: category name and label
    array, in property order; a label array may be [null]. *)
Definition Entities := list (string * option (list string)).

Record PredictionResult := {
  icdPredictions : option (list Pred);
  entities : option Entities
}.

Record GraphData := {
  gd_nodes : option (list Node);
  gd_edges : option (list Edge);
  gd_entities : option Entities
}.

(** [a || []] *)
Definition or_empty {A : Type} (a : option (list A)) : list A :=
  match a with
  | Some l => l
  | None => []
  end.

(** What the component hands to [renderGraph]. *)
Inductive view :=
  | EmptyState
  | Graph (nodes : list Node) (edges : list Edge).

(** ** The Builder: graph construction in [GraphViewer] *)

(** [pred.description || pred.code]: an empty description is falsy. *)
Definition pred_label (pred : Pred) : string :=
  match pred_description pred with
  | Some d => if bool_decide (d = "") then pred_code pred else d
  | None => pred_code pred
  end.

(** [(predictions.icdPredictions || []).slice(0, 5).map(pred => ({...}))] *)
Definition predictionNodes (preds : list Pred) : list Node :=
  map (fun pred =>
         {| node_id := Some (pred_code pred);
            node_label := Some (pred_label pred);
            node_type := Some "icd";
            node_level := Some (length (split "." (pred_code pred)));
            node_probability := Some (pred_probability pred) |})
      (take 5 preds).

(** The graph data set in the [catch] branch of [fetchGraphData]. *)
Definition catchGraphData (predictions : PredictionResult) : GraphData :=
  {| gd_nodes := Some (predictionNodes (or_empty (icdPredictions predictions)));
     gd_edges := Some [];
     gd_entities := Some (or_empty (entities predictions)) |}.

Definition entityNodeId (type entity : string) : string :=
  "entity_" +:+ type +:+ "_" +:+ entity.

Definition entityNode (type entity : string) : Node :=
  {| node_id := Some (entityNodeId type entity);
     node_label := Some entity;
     node_type := Some ("entity_" +:+ type);
     node_level := Some 0;
     node_probability := None |}.

(** [nodes.find(n => n.id === v)] *)
Definition findNode (nodes : list Node) (v : option string) : option Node :=
  List.find (fun n => strict_eq (node_id n) v) nodes.

(** Entity nodes, fallback path: every label is pushed. *)
Definition addEntityNodes_fallback (ents : Entities) (fallbackNodes : list Node)
  : list Node :=
  fold_left (fun nodes '(type, labels) =>
               fold_left (fun nodes entity => nodes ++ [entityNode type entity])
                         (take 3 (or_empty labels)) nodes)
            ents fallbackNodes.

(** Entity nodes, API-data path: a label is pushed only when no node with
    the derived id is there yet. *)
Definition addEntityNodes (ents : Entities) (allNodes : list Node) : list Node :=
  fold_left (fun nodes '(type, labels) =>
               fold_left (fun nodes entity =>
                            match findNode nodes (Some (entityNodeId type entity)) with
                            | Some _ => nodes
                            | None => nodes ++ [entityNode type entity]
                            end)
                         (take 3 (or_empty labels)) nodes)
            ents allNodes.

(** [parts.slice(0, -1).join('.')] *)
Definition parentCode (parts : list string) : string :=
  join "." (removelast parts).

Definition parentChildEdge (parent : string) (child : option string) (w : float)
  : Edge :=
  {| edge_source := Some parent;
     edge_target := child;
     edge_type := Some "parent-child";
     edge_weight := Some w |}.

(** Hierarchy edges, fallback path. *)
Definition hierarchyEdges_fallback (gnodes : list Node) (fallbackEdges : list Edge)
  : result (list Edge) :=
  forEachM (fun edges node =>
              match node_id node with
              | None => TypeError
              | Some id =>
                  let parts := split "." id in
                  if (1 <? length parts)%nat then
                    match findNode gnodes (Some (parentCode parts)) with
                    | Some _ =>
                        Ok (edges ++ [parentChildEdge (parentCode parts) (Some id)
                                        (opt_or_default (node_probability node) 0.5)])
                    | None => Ok edges
                    end
                  else Ok edges
              end)
           gnodes fallbackEdges.

(** [predictions?.icdPredictions?.find(p => p.code === node.id)] *)
Definition findPred (predictions : option PredictionResult) (id : string)
  : option Pred :=
  match predictions with
  | Some p => List.find (fun q => bool_decide (pred_code q = id))
                        (or_empty (icdPredictions p))
  | None => None
  end.

(** Hierarchy edges, API-data path: guarded on [node.id], skipping entity
    ids and parent-child pairs that already have an edge. *)
Definition hierarchyEdges (predictions : option PredictionResult)
    (gnodes : list Node) (allEdges : list Edge) : list Edge :=
  fold_left (fun edges node =>
               match node_id node with
               | None => edges
               | Some id =>
                   if negb (bool_decide (id = "")) && negb (startsWith id "entity_") then
                     let parts := split "." id in
                     if (1 <? length parts)%nat then
                       match findNode gnodes (Some (parentCode parts)) with
                       | Some _ =>
                           if existsb (fun e => strict_eq (edge_source e) (Some (parentCode parts))
                                                && strict_eq (edge_target e) (Some id)) edges
                           then edges
                           else edges ++
                                [parentChildEdge (parentCode parts) (Some id)
                                   (opt_or_default
                                      (pred_probability <$> findPred predictions id) 0.5)]
                       | None => edges
                       end
                     else edges
                   else edges
               end)
            gnodes allEdges.

(** The relevance weight of an entity-to-code edge. *)
Definition entityWeight (type : string) (probability : float) : float :=
  if includes type "diseases" then (probability * 0.8)%float
  else if includes type "symptoms" then (probability * 0.6)%float
  else 0.5%float.

Definition entityIcdEdge (entityNode icdNode : Node) (w : float) : Edge :=
  {| edge_source := node_id entityNode;
     edge_target := node_id icdNode;
     edge_type := Some "entity-icd";
     edge_weight := Some w |}.

(** Edges from every entity node to the first three predictions that are
    nodes of the graph (both paths). *)
Definition connectEntity (allNodes : list Node) (preds : list Pred)
    (edges : list Edge) (entityNode : Node) : result (list Edge) :=
  match node_id entityNode with
  | None => TypeError
  | Some id =>
      if startsWith id "entity_" then
        forEachM (fun edges icdPred =>
                    match findNode allNodes (Some (pred_code icdPred)) with
                    | Some icdNode =>
                        match node_type entityNode with
                        | None => TypeError
                        | Some ty =>
                            Ok (edges ++
                                [entityIcdEdge entityNode icdNode
                                   (entityWeight ty (pred_probability icdPred))])
                        end
                    | None => Ok edges
                    end)
                 (take 3 preds) edges
      else Ok edges
  end.

Definition connectEntities (allNodes : list Node) (preds : list Pred)
    (edges : list Edge) : result (list Edge) :=
  forEachM (connectEntity allNodes preds) allNodes edges.

(** The branch taken when there is no graph data or it has no nodes. *)
Definition fallbackGraph (predictions : option PredictionResult) : result view :=
  match predictions with
  | None => Ok EmptyState
  | Some p =>
      match icdPredictions p with
      | None | Some [] => Ok EmptyState
      | Some preds =>
          let gnodes := predictionNodes preds in
          let fallbackNodes :=
            match entities p with
            | Some ents => addEntityNodes_fallback ents gnodes
            | None => gnodes
            end in
          edges ← hierarchyEdges_fallback gnodes [] ;
          edges ← connectEntities fallbackNodes preds edges ;
          Ok (Graph fallbackNodes edges)
      end
  end.

(** [predictions?.icdPredictions || []] *)
Definition predictionList (predictions : option PredictionResult) : list Pred :=
  match predictions with
  | Some p => or_empty (icdPredictions p)
  | None => []
  end.

(** The branch that renders the API data. *)
Definition apiGraph (gnodes : list Node) (graphData : GraphData)
    (predictions : option PredictionResult) : result view :=
  let allNodes :=
    match gd_entities graphData, predictions with
    | Some ents, Some _ => addEntityNodes ents gnodes
    | _, _ => gnodes
    end in
  let allEdges := hierarchyEdges predictions gnodes (or_empty (gd_edges graphData)) in
  edges ← connectEntities allNodes (predictionList predictions) allEdges ;
  Ok (Graph allNodes edges).

(** The nodes and edges that [GraphViewer] passes to [renderGraph], for the
    graph data in its state and the predictions in its props.  (The loading
    screen and the load-error screen, which come first in the component,
    build nothing.) *)
Definition GraphViewer (graphData : option GraphData)
    (predictions : option PredictionResult) : result view :=
  match graphData with
  | Some gd =>
      match gd_nodes gd with
      | Some (n :: ns) => apiGraph (n :: ns) gd predictions
      | _ => fallbackGraph predictions
      end
  | None => fallbackGraph predictions
  end.

(** ** The layout: [calculateNodePositions] *)

(** An [{x, y}] object: a position or a force accumulator. *)
Record Point := { px : float; py : float }.

Definition Math_PI : float := 3.141592653589793%float.

Definition margin : float := 80%float.

(** [Math.max(margin, Math.min(dimension - margin, c))] *)
Definition clamp (dimension c : float) : float :=
  Math_max margin (Math_min (dimension - margin) c).

(** The function builds a [nodeMap] first, which it never reads; it is
    left out. *)
Section Layout.

(** [Math.cos] and [Math.sin]: ECMAScript leaves their values to the
    engine, so the layout is a function of them. *)
Variables Math_cos Math_sin : float → float.

Definition nodeKey (node : Node) : string := key_of (node_id node).

(** [degrees[k] = (degrees[k] || 0) + 1] *)
Definition bump (k : string) (degrees : gmap string nat) : gmap string nat :=
  <[k := (default 0 (degrees !! k) + 1)%nat]> degrees.

Definition computeDegrees (nodes : list Node) (edges : list Edge)
  : gmap string nat :=
  let degrees := fold_left (fun d node => <[nodeKey node := 0%nat]> d) nodes ∅ in
  fold_left (fun d edge =>
               bump (key_of (edge_target edge)) (bump (key_of (edge_source edge)) d))
            edges degrees.

(** The centre: the first node whose degree exceeds every earlier one;
    [nodes[0]?.id] when no degree exceeds [0]. *)
Definition findCenter (nodes : list Node) (degrees : gmap string nat)
  : option string :=
  snd (fold_left (fun '(maxDegree, centerNodeId) node =>
                    let d := default 0%nat (degrees !! nodeKey node) in
                    if (maxDegree <? d)%nat then (d, node_id node)
                    else (maxDegree, centerNodeId))
                 nodes (0%nat, head nodes ≫= node_id)).

(** [otherNodes.forEach((node, index) => ...)] *)
Fixpoint placeOthers (centerX centerY radius angleStep : float) (index : nat)
    (otherNodes : list Node) (positions : gmap string Point)
  : gmap string Point :=
  match otherNodes with
  | [] => positions
  | node :: rest =>
      let angle := (of_nat index * angleStep)%float in
      placeOthers centerX centerY radius angleStep (S index) rest
        (<[nodeKey node :=
             {| px := (centerX + radius * Math_cos angle)%float;
                py := (centerY + radius * Math_sin angle)%float |}]> positions)
  end.

Definition initialPositions (nodes : list Node) (edges : list Edge)
    (width height : float) : gmap string Point :=
  let centerNodeId := findCenter nodes (computeDegrees nodes edges) in
  let centerX := (width / 2)%float in
  let centerY := (height / 2)%float in
  let radius := (Math_min width height * 0.4)%float in
  let positions := {[ key_of centerNodeId := {| px := centerX; py := centerY |} ]} in
  let otherNodes := List.filter (fun n => negb (strict_eq (node_id n) centerNodeId)) nodes in
  let angleStep := (2 * Math_PI / Math_max (of_nat (length otherNodes)) 1)%float in
  placeOthers centerX centerY radius angleStep 0 otherNodes positions.

(** [forces[k]], an object whose fields are then read. *)
Definition force_at (forces : gmap string Point) (k : string) : result Point :=
  match forces !! k with
  | Some f => Ok f
  | None => TypeError
  end.

(** [forces[k].x += ax; forces[k].y += ay] *)
Definition addForce (forces : gmap string Point) (k : string) (ax ay : float)
  : result (gmap string Point) :=
  f ← force_at forces k ;
  Ok (<[k := {| px := (px f + ax)%float; py := (py f + ay)%float |}]> forces).

(** [forces[k].x -= ax; forces[k].y -= ay] *)
Definition subForce (forces : gmap string Point) (k : string) (ax ay : float)
  : result (gmap string Point) :=
  f ← force_at forces k ;
  Ok (<[k := {| px := (px f - ax)%float; py := (py f - ay)%float |}]> forces).

(** [Math.sqrt(dx * dx + dy * dy) || 1] *)
Definition distanceOr1 (dx dy : float) : float :=
  or_default (PrimFloat.sqrt (dx * dx + dy * dy)) 1.

(** The body of [edges.forEach] in one iteration. *)
Definition attract (positions : gmap string Point) (forces : gmap string Point)
    (edge : Edge) : result (gmap string Point) :=
  let ks := key_of (edge_source edge) in
  let kt := key_of (edge_target edge) in
  match positions !! ks, positions !! kt with
  | Some source, Some target =>
      let dx := (px target - px source)%float in
      let dy := (py target - py source)%float in
      let distance := distanceOr1 dx dy in
      let force := ((distance - 200) * 0.005)%float in
      forces ← addForce forces ks (dx / distance * force) (dy / distance * force) ;
      subForce forces kt (dx / distance * force) (dy / distance * force)
  | _, _ => Ok forces
  end.

(** The body of the inner [forEach] over [nodes.slice(i + 1)]. *)
Definition repel (positions : gmap string Point) (node1 : Node)
    (forces : gmap string Point) (node2 : Node) : result (gmap string Point) :=
  match positions !! nodeKey node1, positions !! nodeKey node2 with
  | Some pos1, Some pos2 =>
      let dx := (px pos2 - px pos1)%float in
      let dy := (py pos2 - py pos1)%float in
      let distance := distanceOr1 dx dy in
      let force :=
        if PrimFloat.ltb distance 120
        then ((120 - distance) * 2)%float
        else (2000 / (distance * distance))%float in
      forces ← subForce forces (nodeKey node1)
                 (dx / distance * force) (dy / distance * force) ;
      addForce forces (nodeKey node2) (dx / distance * force) (dy / distance * force)
  | _, _ => Ok forces
  end.

(** [nodes.forEach((node1, i) => nodes.slice(i + 1).forEach(...))] *)
Fixpoint repulsion (positions : gmap string Point) (nodes : list Node)
    (forces : gmap string Point) : result (gmap string Point) :=
  match nodes with
  | [] => Ok forces
  | node1 :: rest =>
      forces ← forEachM (repel positions node1) rest forces ;
      repulsion positions rest forces
  end.

(** The body of the last [nodes.forEach] of an iteration: move the node
    by a tenth of its force and clamp it to the canvas. *)
Definition applyForce (width height : float) (forces : gmap string Point)
    (positions : gmap string Point) (node : Node) : result (gmap string Point) :=
  match positions !! nodeKey node with
  | None => Ok positions
  | Some pos =>
      force ← force_at forces (nodeKey node) ;
      Ok (<[nodeKey node :=
              {| px := clamp width (px pos + px force * 0.1);
                 py := clamp height (py pos + py force * 0.1) |}]> positions)
  end.

Definition zeroForces (nodes : list Node) : gmap string Point :=
  fold_left (fun f node => <[nodeKey node := {| px := 0; py := 0 |}]> f) nodes ∅.

(** One pass of the [for] loop. *)
Definition iteration (nodes : list Node) (edges : list Edge)
    (width height : float) (positions : gmap string Point)
  : result (gmap string Point) :=
  forces ← forEachM (attract positions) edges (zeroForces nodes) ;
  forces ← repulsion positions nodes forces ;
  forEachM (applyForce width height forces) nodes positions.

Fixpoint iterations (n : nat) (nodes : list Node) (edges : list Edge)
    (width height : float) (positions : gmap string Point)
  : result (gmap string Point) :=
  match n with
  | O => Ok positions
  | S n' =>
      positions ← iteration nodes edges width height positions ;
      iterations n' nodes edges width height positions
  end.

Definition calculateNodePositions (nodes : list Node) (edges : list Edge)
    (width height : float) : result (gmap string Point) :=
  iterations 50 nodes edges width height
    (initialPositions nodes edges width height).

End Layout.

(** [rect.width || 800], [rect.height || 600] in [updateDimensions]. *)
Definition updateDimensions (rectWidth rectHeight : float) : float * float :=
  (or_default rectWidth 800, or_default rectHeight 600).

(** ** Visual encoding and drawing: [getNodeColor], [getNodeSize], [renderGraph] *)


Definition getNodeSize (node : Node) (predictions : option PredictionResult)
  : float :=
  match node_id node with
  | Some id =>
      if negb (bool_decide (id = "")) && negb (startsWith id "entity_") then
        match findPred predictions id with
        | Some icdPred => (20 + pred_probability icdPred * 20)%float
        | None => 16%float
        end
      else 16%float
  | None => 16%float
  end.




(** [e.weight || 0.5] *)
Definition effectiveWeight (e : Edge) : float :=
  opt_or_default (edge_weight e) 0.5.

(** [Math.min(...values)] and [Math.max(...values)] *)
Definition Math_min_of (values : list float) : float :=
  fold_left Math_min values infinity.
Definition Math_max_of (values : list float) : float :=
  fold_left Math_max values neg_infinity.




Section Rendering.

Variables Math_cos Math_sin : float → float.



End Rendering.

(** * Vocabulary of the properties *)

(** Some node of the list has this id. *)
Definition has_node (nodes : list Node) (v : option string) : Prop :=
  ∃ n, n ∈ nodes ∧ node_id n = v.

(** An edge whose two endpoints are ids of nodes. *)
Definition anchored (nodes : list Node) (e : Edge) : Prop :=
  has_node nodes (edge_source e) ∧ has_node nodes (edge_target e).

(** The edges the external graph brought along. *)
Definition externalEdges (graphData : option GraphData) : list Edge :=
  match graphData with
  | Some gd => or_empty (gd_edges gd)
  | None => []
  end.






(** Two node lists with the same ids in the same order, two edge lists with
    the same endpoints in the same order. *)
Definition same_ids (nodes nodes' : list Node) : Prop :=
  Forall2 (fun n n' => node_id n = node_id n') nodes nodes'.

Definition same_endpoints (edges edges' : list Edge) : Prop :=
  Forall2 (fun e e' => edge_source e = edge_source e'
                       ∧ edge_target e = edge_target e') edges edges'.




(** A parent-child edge as the Builder makes it: the target is the source
    followed by a dot and one more segment, and the weight is a number
    other than [0] and [NaN]. *)
Definition parentChildShape (e : Edge) : Prop :=
  ∃ parent segment w,
    edge_source e = Some parent
    ∧ edge_target e = Some (parent +:+ "." +:+ segment)
    ∧ includes segment "." = false
    ∧ edge_type e = Some "parent-child"
    ∧ edge_weight e = Some w ∧ truthy w = true.

(** An entity-icd edge as the Builder makes it: from a node whose id starts
    with "entity_" to the code of one of the first three predictions, with
    the weight of the node's type and the prediction's probability. *)
Definition entityIcdShape (nodes : list Node) (preds : list Pred) (e : Edge)
  : Prop :=
  ∃ n id ty q,
    n ∈ nodes ∧ node_id n = Some id ∧ startsWith id "entity_" = true
    ∧ node_type n = Some ty
    ∧ q ∈ take 3 preds
    ∧ edge_source e = Some id
    ∧ edge_target e = Some (pred_code q)
    ∧ edge_type e = Some "entity-icd"
    ∧ edge_weight e = Some (entityWeight ty (pred_probability q)).

(** The ordered pair of ids an edge joins. *)
Definition edgeEnds (e : Edge) : option string * option string :=
  (edge_source e, edge_target e).

(** The entity groups the API-data path reads: those of the graph data, and
    only when there is a prediction result. *)
Definition entitySource (gd : GraphData) (predictions : option PredictionResult)
  : Entities :=
  match gd_entities gd, predictions with
  | Some ents, Some _ => ents
  | _, _ => []
  end.

(** A node made for one of the first three labels of a category. *)
Definition fromEntities (ents : Entities) (a : Node) : Prop :=
  ∃ type labels label,
    (type, labels) ∈ ents ∧ label ∈ take 3 (or_empty labels)
    ∧ a = entityNode type label.

(** The identifiers of the entity nodes, in the order the Builder makes
    them. *)
Definition entityIds (ents : Entities) : list (option string) :=
  flat_map (fun '(type, labels) =>
              map (fun entity => Some (entityNodeId type entity))
                  (take 3 (or_empty labels)))
           ents.

(** The identifiers of the nodes built from a prediction result alone. *)
Definition predictionIds (p : PredictionResult) : list (option string) :=
  map (fun q => Some (pred_code q)) (take 5 (or_empty (icdPredictions p)))
  ++ entityIds (or_empty (entities p)).

(** A node made for one of the first five predictions, whose code does not
    look like an entity id and is that of no earlier prediction. *)
Definition ownPrediction (p : PredictionResult) (n : Node) : Prop :=
  ∃ q, node_id n = Some (pred_code q)
       ∧ node_probability n = Some (pred_probability q)
       ∧ findPred (Some p) (pred_code q) = Some q
       ∧ startsWith (pred_code q) "entity_" = false.


(** * Example inputs *)

(** The prediction of the worked example. *)
Definition example_prediction : PredictionResult :=
  {| icdPredictions :=
       Some [ {| pred_code := "410.71"; pred_description := Some "d1";
                 pred_probability := 0.9 |};
              {| pred_code := "410.7"; pred_description := Some "d2";
                 pred_probability := 0.8 |} ];
     entities :=
       Some [ ("diseases", Some ["MI"]); ("symptoms", Some []);
              ("procedures", Some []); ("medications", Some []) ] |}.

(** The nodes and edges built for it. *)
Definition example_nodes : list Node :=
  [ {| node_id := Some "410.71"; node_label := Some "d1"; node_type := Some "icd";
       node_level := Some 2%nat; node_probability := Some 0.9%float |};
    {| node_id := Some "410.7"; node_label := Some "d2"; node_type := Some "icd";
       node_level := Some 2%nat; node_probability := Some 0.8%float |};
    {| node_id := Some "entity_diseases_MI"; node_label := Some "MI";
       node_type := Some "entity_diseases"; node_level := Some 0%nat;
       node_probability := None |} ].

Definition example_edges : list Edge :=
  [ {| edge_source := Some "entity_diseases_MI"; edge_target := Some "410.71";
       edge_type := Some "entity-icd"; edge_weight := Some (0.9 * 0.8)%float |};
    {| edge_source := Some "entity_diseases_MI"; edge_target := Some "410.7";
       edge_type := Some "entity-icd"; edge_weight := Some (0.8 * 0.8)%float |} ].

(** API data with one node "A" and one edge from "A" to an id "Z" that is
    not in the node list. *)
Definition dangling_graphData : GraphData :=
  {| gd_nodes := Some [ {| node_id := Some "A"; node_label := Some "a";
                           node_type := Some "icd"; node_level := None;
                           node_probability := None |} ];
     gd_edges := Some [ {| edge_source := Some "A"; edge_target := Some "Z";
                           edge_type := Some "related"; edge_weight := Some 1%float |} ];
     gd_entities := None |}.

(** API data whose only node record has no [id]. *)
Definition idless_graphData : GraphData :=
  {| gd_nodes := Some [ {| node_id := None; node_label := Some "x";
                           node_type := Some "icd"; node_level := None;
                           node_probability := None |} ];
     gd_edges := Some [];
     gd_entities := Some [] |}.

(** A prediction result with no predictions and no entities. *)
Definition empty_prediction : PredictionResult :=
  {| icdPredictions := Some []; entities := Some [] |}.

(** API data that has none of the predicted codes among its nodes. *)
Definition unrelated_graphData : GraphData :=
  {| gd_nodes := Some [ {| node_id := Some "X"; node_label := Some "x";
                           node_type := Some "icd"; node_level := None;
                           node_probability := None |} ];
     gd_edges := Some [];
     gd_entities := Some [ ("diseases", Some ["MI"]) ] |}.

(** A prediction result in which one label occurs twice in a category. *)
Definition repeated_prediction : PredictionResult :=
  {| icdPredictions :=
       Some [ {| pred_code := "410.71"; pred_description := Some "d1";
                 pred_probability := 0.9 |} ];
     entities := Some [ ("diseases", Some ["MI"; "MI"]) ] |}.

(** A prediction result with one prediction and one entity. *)
Definition single_entity_prediction : PredictionResult :=
  {| icdPredictions :=
       Some [ {| pred_code := "410.71"; pred_description := Some "d1";
                 pred_probability := 0.9 |} ];
     entities := Some [ ("diseases", Some ["MI"]) ] |}.

(** The graph built for it. *)
Definition single_entity_nodes : list Node :=
  [ {| node_id := Some "410.71"; node_label := Some "d1"; node_type := Some "icd";
       node_level := Some 2%nat; node_probability := Some 0.9%float |};
    {| node_id := Some "entity_diseases_MI"; node_label := Some "MI";
       node_type := Some "entity_diseases"; node_level := Some 0%nat;
       node_probability := None |} ].

Definition single_entity_edges : list Edge :=
  [ {| edge_source := Some "entity_diseases_MI"; edge_target := Some "410.71";
       edge_type := Some "entity-icd"; edge_weight := Some (0.9 * 0.8)%float |} ].




(** * Properties *)

(** ** Loops *)

(** A run that returned went through its first fallible step: continue with
    the value [x] of that step. *)
Ltac run_step H x Hx :=
  match type of H with
  | mbind _ ?r = Ok _ =>
      destruct r as [x|] eqn:Hx; simpl in H; [|discriminate H]
  end.

Lemma forEachM_inv {A S : Type} (P : S → Prop) (body : S → A → result S)
    (l : list A) (s s' : S) :
  P s →
  (∀ s a s', a ∈ l → P s → body s a = Ok s' → P s') →
  forEachM body l s = Ok s' → P s'.
Proof.
  revert s. induction l as [|a l IH]; intros s Hs Hstep Hrun; simpl in Hrun.
  - by inversion Hrun; subst.
  - run_step Hrun s1 Hb.
    apply (IH s1); [|intros; eapply Hstep; [by apply list_elem_of_further| |]|]; eauto.
    eapply Hstep; [apply list_elem_of_here| |]; eauto.
Qed.


Lemma fold_left_inv {A S : Type} (P : S → Prop) (f : S → A → S)
    (l : list A) (s : S) :
  P s → (∀ s a, a ∈ l → P s → P (f s a)) → P (fold_left f l s).
Proof.
  revert s. induction l as [|a l IH]; intros s Hs Hstep; simpl; [done|].
  apply IH.
  - apply Hstep; [apply list_elem_of_here|done].
  - intros. apply Hstep; [by apply list_elem_of_further|done].
Qed.

(** ** The Builder *)

Lemma findNode_Some nodes v n :
  findNode nodes v = Some n → n ∈ nodes ∧ node_id n = v.
Proof.
  unfold findNode. intros H. apply find_some in H as [Hin Heq].
  split; [by apply list_elem_of_In|]. by apply bool_decide_eq_true in Heq.
Qed.

Lemma findNode_None nodes v :
  findNode nodes v = None → ¬ has_node nodes v.
Proof.
  unfold findNode. intros H (n & Hin & Hid).
  apply list_elem_of_In in Hin.
  pose proof (find_none _ _ H n Hin) as Hf. simpl in Hf.
  unfold strict_eq in Hf. apply bool_decide_eq_false in Hf. done.
Qed.

Lemma has_node_findNode nodes v :
  has_node nodes v → ∃ n, findNode nodes v = Some n.
Proof.
  intros Hn. destruct (findNode nodes v) eqn:E; [eauto|].
  by apply findNode_None in E.
Qed.

Lemma has_node_mono nodes nodes' v :
  (∀ n, n ∈ nodes → n ∈ nodes') → has_node nodes v → has_node nodes' v.
Proof. intros Hsub (n & Hin & Hid). exists n. auto. Qed.

Lemma addEntityNodes_fallback_incl ents nodes n :
  n ∈ nodes → n ∈ addEntityNodes_fallback ents nodes.
Proof.
  unfold addEntityNodes_fallback. revert n.
  apply (fold_left_inv (fun ns => ∀ n, n ∈ nodes → n ∈ ns)); [done|].
  intros ns [type labels] _ Hns.
  apply (fold_left_inv (fun ns => ∀ n, n ∈ nodes → n ∈ ns)); [done|].
  intros ns' entity _ Hns' n Hn. apply elem_of_app. left. auto.
Qed.

Lemma addEntityNodes_incl ents nodes n :
  n ∈ nodes → n ∈ addEntityNodes ents nodes.
Proof.
  unfold addEntityNodes. revert n.
  apply (fold_left_inv (fun ns => ∀ n, n ∈ nodes → n ∈ ns)); [done|].
  intros ns [type labels] _ Hns.
  apply (fold_left_inv (fun ns => ∀ n, n ∈ nodes → n ∈ ns)); [done|].
  intros ns' entity _ Hns' n Hn. cbv beta.
  destruct (findNode _ _); [auto|]. apply elem_of_app. left. auto.
Qed.

Lemma hierarchyEdges_fallback_anchored gnodes edges0 edges e :
  hierarchyEdges_fallback gnodes edges0 = Ok edges →
  e ∈ edges → e ∈ edges0 ∨ anchored gnodes e.
Proof.
  unfold hierarchyEdges_fallback. intros Hrun. revert e.
  eapply (forEachM_inv (fun es => ∀ e, e ∈ es → e ∈ edges0 ∨ anchored gnodes e));
    [| |exact Hrun]; [auto|].
  intros es node es' Hnode Hes Hbody e He. cbv beta in Hbody.
  destruct (node_id node) as [id|] eqn:Hid; [|done].
  destruct (1 <? length (split "." id))%nat.
  - destruct (findNode gnodes _) as [parent|] eqn:Hfind.
    + inversion Hbody; subst es'. apply elem_of_app in He as [He|He]; [auto|].
      apply list_elem_of_singleton in He as ->. right.
      apply findNode_Some in Hfind as [Hp Hpid].
      split; simpl; [by exists parent|by exists node].
    + inversion Hbody; subst; auto.
  - inversion Hbody; subst; auto.
Qed.

Lemma hierarchyEdges_anchored predictions gnodes edges0 e :
  e ∈ hierarchyEdges predictions gnodes edges0 →
  e ∈ edges0 ∨ anchored gnodes e.
Proof.
  unfold hierarchyEdges. revert e.
  apply (fold_left_inv (fun es => ∀ e, e ∈ es → e ∈ edges0 ∨ anchored gnodes e));
    [auto|].
  intros es node Hnode Hes e. cbv beta.
  destruct (node_id node) as [id|] eqn:Hid; [|auto].
  destruct (_ && _); [|auto].
  destruct (1 <? length (split "." id))%nat; [|auto].
  destruct (findNode gnodes _) as [parent|] eqn:Hfind; [|auto].
  destruct (existsb _ es); [auto|].
  intros He. apply elem_of_app in He as [He|He]; [auto|].
  apply list_elem_of_singleton in He as ->. right.
  apply findNode_Some in Hfind as [Hp Hpid].
  split; simpl; [by exists parent|by exists node].
Qed.

Lemma connectEntity_anchored allNodes preds edges0 entityNode edges e :
  entityNode ∈ allNodes →
  connectEntity allNodes preds edges0 entityNode = Ok edges →
  e ∈ edges → e ∈ edges0 ∨ anchored allNodes e.
Proof.
  unfold connectEntity. intros Hent Hrun.
  destruct (node_id entityNode) as [id|] eqn:Hid; [|done].
  destruct (startsWith id "entity_"); [|by inversion Hrun; subst; auto].
  revert e.
  eapply (forEachM_inv (fun es => ∀ e, e ∈ es → e ∈ edges0 ∨ anchored allNodes e));
    [| |exact Hrun]; [auto|].
  intros es icdPred es' _ Hes Hbody e He. cbv beta in Hbody.
  destruct (findNode allNodes _) as [icdNode|] eqn:Hfind;
    [|by inversion Hbody; subst; auto].
  destruct (node_type entityNode) as [ty|]; [|done].
  inversion Hbody; subst es'. apply elem_of_app in He as [He|He]; [auto|].
  apply list_elem_of_singleton in He as ->. right.
  apply findNode_Some in Hfind as [Hp Hpid].
  split; simpl; [by exists entityNode|by exists icdNode].
Qed.

Lemma connectEntities_anchored allNodes preds edges0 edges e :
  connectEntities allNodes preds edges0 = Ok edges →
  e ∈ edges → e ∈ edges0 ∨ anchored allNodes e.
Proof.
  unfold connectEntities. intros Hrun. revert e.
  eapply (forEachM_inv (fun es => ∀ e, e ∈ es → e ∈ edges0 ∨ anchored allNodes e));
    [| |exact Hrun]; [auto|].
  intros es node es' Hnode Hes Hbody e He.
  destruct (connectEntity_anchored _ _ _ _ _ e Hnode Hbody He); auto.
Qed.

Lemma anchored_mono nodes nodes' e :
  (∀ n, n ∈ nodes → n ∈ nodes') → anchored nodes e → anchored nodes' e.
Proof. intros Hsub [Hs Ht]. split; eapply has_node_mono; eauto. Qed.

Lemma fallbackGraph_anchored predictions nodes edges e :
  fallbackGraph predictions = Ok (Graph nodes edges) →
  e ∈ edges → anchored nodes e.
Proof.
  unfold fallbackGraph. intros Hrun He.
  destruct predictions as [p|]; [|done].
  destruct (icdPredictions p) as [[|q preds]|] eqn:Hp; [done| |done].
  run_step Hrun es1 H1.
  run_step Hrun es2 H2.
  inversion Hrun; subst nodes edges; clear Hrun.
  destruct (connectEntities_anchored _ _ _ _ e H2 He) as [He1|]; [|done].
  destruct (hierarchyEdges_fallback_anchored _ _ _ e H1 He1) as [He0|Ha].
  - by apply elem_of_nil in He0.
  - eapply anchored_mono; [|exact Ha].
    intros n Hn. destruct (entities p); [by apply addEntityNodes_fallback_incl|done].
Qed.

Lemma apiGraph_anchored gnodes gd predictions nodes edges e :
  apiGraph gnodes gd predictions = Ok (Graph nodes edges) →
  e ∈ edges → e ∈ or_empty (gd_edges gd) ∨ anchored nodes e.
Proof.
  unfold apiGraph. intros Hrun He.
  run_step Hrun es2 H2.
  inversion Hrun; subst nodes edges; clear Hrun.
  destruct (connectEntities_anchored _ _ _ _ e H2 He) as [He1|]; [|auto].
  destruct (hierarchyEdges_anchored _ _ _ e He1) as [He0|Ha]; [auto|].
  right. eapply anchored_mono; [|exact Ha].
  intros n Hn. destruct (gd_entities gd), predictions; auto using addEntityNodes_incl.
Qed.

Lemma forEachM_mono {A S : Type} (Q : S → Prop) (body : S → A → result S)
    (l : list A) (s s' : S) :
  (∀ s b s', body s b = Ok s' → Q s → Q s') →
  Q s → forEachM body l s = Ok s' → Q s'.
Proof.
  intros Hstable Hs. apply forEachM_inv; [done|]. intros; eauto.
Qed.

Lemma forEachM_elem {A S : Type} (Q : S → Prop) (body : S → A → result S)
    (l : list A) (s s' : S) (a : A) :
  (∀ s b s', body s b = Ok s' → Q s → Q s') →
  (∀ s s', body s a = Ok s' → Q s') →
  a ∈ l → forEachM body l s = Ok s' → Q s'.
Proof.
  intros Hstable Hat. revert s.
  induction l as [|b l IH]; intros s Hin Hrun; [by apply elem_of_nil in Hin|].
  simpl in Hrun. run_step Hrun s1 Hb.
  apply elem_of_cons in Hin as [->|Hin]; [|by apply (IH s1)].
  eapply forEachM_mono; [exact Hstable| |exact Hrun]. eauto.
Qed.

Lemma connectEntity_grows allNodes preds edges0 entityNode edges e :
  connectEntity allNodes preds edges0 entityNode = Ok edges →
  e ∈ edges0 → e ∈ edges.
Proof.
  unfold connectEntity. intros Hrun He.
  destruct (node_id entityNode) as [id|]; [|done].
  destruct (startsWith id "entity_"); [|by inversion Hrun; subst].
  eapply (forEachM_mono (fun es => e ∈ es)); [|exact He|exact Hrun].
  intros es p es' Hbody Hes. cbv beta in Hbody.
  destruct (findNode allNodes _); [|by inversion Hbody; subst].
  destruct (node_type entityNode); [|done].
  inversion Hbody; subst. apply elem_of_app; auto.
Qed.

Lemma connectEntity_complete allNodes preds edges0 entityNode edges id p icdNode :
  connectEntity allNodes preds edges0 entityNode = Ok edges →
  node_id entityNode = Some id → startsWith id "entity_" = true →
  p ∈ take 3 preds →
  findNode allNodes (Some (pred_code p)) = Some icdNode →
  ∃ ty, node_type entityNode = Some ty ∧
        entityIcdEdge entityNode icdNode (entityWeight ty (pred_probability p)) ∈ edges.
Proof.
  unfold connectEntity. intros Hrun Hid Hpre Hp Hfind.
  rewrite Hid, Hpre in Hrun.
  eapply (forEachM_elem
            (fun es => ∃ ty, node_type entityNode = Some ty ∧
               entityIcdEdge entityNode icdNode
                 (entityWeight ty (pred_probability p)) ∈ es));
    [| |exact Hp|exact Hrun].
  - intros es q es' Hbody (ty & Hty & Hes). exists ty. split; [done|].
    cbv beta in Hbody. rewrite Hty in Hbody.
    destruct (findNode allNodes (Some (pred_code q))); inversion Hbody; subst;
      [apply elem_of_app|]; auto.
  - intros es es' Hbody. cbv beta in Hbody. rewrite Hfind in Hbody.
    destruct (node_type entityNode) as [ty|]; [|done].
    exists ty. split; [done|].
    inversion Hbody; subst. apply elem_of_app. right. apply list_elem_of_here.
Qed.

Lemma connectEntities_complete allNodes preds edges0 edges n id p icdNode :
  connectEntities allNodes preds edges0 = Ok edges →
  n ∈ allNodes → node_id n = Some id → startsWith id "entity_" = true →
  p ∈ take 3 preds →
  findNode allNodes (Some (pred_code p)) = Some icdNode →
  ∃ ty, node_type n = Some ty ∧
        entityIcdEdge n icdNode (entityWeight ty (pred_probability p)) ∈ edges.
Proof.
  unfold connectEntities. intros Hrun Hn Hid Hpre Hp Hfind.
  eapply (forEachM_elem
            (fun es => ∃ ty, node_type n = Some ty ∧
               entityIcdEdge n icdNode (entityWeight ty (pred_probability p)) ∈ es));
    [| |exact Hn|exact Hrun].
  - intros es m es' Hbody (ty & Hty & Hes). exists ty. split; [done|].
    eapply connectEntity_grows; eauto.
  - intros es es' Hbody. eapply connectEntity_complete; eauto.
Qed.

Lemma GraphViewer_connects graphData predictions nodes edges :
  GraphViewer graphData predictions = Ok (Graph nodes edges) →
  ∃ edges0, connectEntities nodes (predictionList predictions) edges0 = Ok edges.
Proof.
  assert (Hfb : fallbackGraph predictions = Ok (Graph nodes edges) →
    ∃ edges0, connectEntities nodes (predictionList predictions) edges0 = Ok edges).
  { unfold fallbackGraph. intros Hrun.
    destruct predictions as [p|]; [|done]. simpl.
    destruct (icdPredictions p) as [[|q preds]|] eqn:Hp; [done| |done].
    run_step Hrun es1 H1.
    run_step Hrun es2 H2.
    inversion Hrun; subst nodes edges. eauto. }
  unfold GraphViewer. intros Hrun.
  destruct graphData as [gd|]; [|auto].
  destruct (gd_nodes gd) as [[|n ns]|]; [auto| |auto].
  unfold apiGraph in Hrun.
  run_step Hrun es2 H2.
  inversion Hrun; subst nodes edges. eauto.
Qed.

Lemma hierarchyEdges_grows predictions gnodes edges0 e :
  e ∈ edges0 → e ∈ hierarchyEdges predictions gnodes edges0.
Proof.
  intros He. unfold hierarchyEdges.
  apply (fold_left_inv (fun es => e ∈ es)); [done|].
  intros es node _ Hes. cbv beta.
  destruct (node_id node) as [id|]; [|done].
  destruct (_ && _); [|done].
  destruct (1 <? _)%nat; [|done].
  destruct (findNode gnodes _); [|done].
  destruct (existsb _ es); [done|]. apply elem_of_app. by left.
Qed.

Lemma connectEntities_grows allNodes preds edges0 edges e :
  connectEntities allNodes preds edges0 = Ok edges → e ∈ edges0 → e ∈ edges.
Proof.
  unfold connectEntities. intros Hrun He.
  eapply (forEachM_mono (fun es => e ∈ es)); [|exact He|exact Hrun].
  intros es n es' Hbody Hes. by eapply connectEntity_grows.
Qed.

(** With API data that has nodes, its edges are all passed on. *)
Lemma apiGraph_keeps_external gnodes gd predictions nodes edges e :
  apiGraph gnodes gd predictions = Ok (Graph nodes edges) →
  e ∈ or_empty (gd_edges gd) → e ∈ edges.
Proof.
  unfold apiGraph. intros Hrun He.
  run_step Hrun es2 H2.
  inversion Hrun; subst nodes edges.
  eapply connectEntities_grows; [exact H2|]. by apply hierarchyEdges_grows.
Qed.

(** When the edges of the API data have their endpoints among the nodes,
    no edge of the output dangles. *)
Lemma GraphViewer_no_dangling graphData predictions nodes edges :
  GraphViewer graphData predictions = Ok (Graph nodes edges) →
  (∀ e, e ∈ externalEdges graphData → anchored nodes e) →
  ∀ e, e ∈ edges → anchored nodes e.
Proof.
  unfold GraphViewer, externalEdges. intros Hrun Hext e He.
  destruct graphData as [gd|]; [|by eapply fallbackGraph_anchored].
  destruct (gd_nodes gd) as [[|n ns]|]; try (by eapply fallbackGraph_anchored).
  destruct (apiGraph_anchored _ _ _ _ _ e Hrun He); auto.
Qed.

(** Without API data each of the first three predictions is a node. *)
Lemma fallbackGraph_top3_nodes predictions nodes edges q :
  fallbackGraph predictions = Ok (Graph nodes edges) →
  q ∈ take 3 (predictionList predictions) →
  has_node nodes (Some (pred_code q)).
Proof.
  unfold fallbackGraph, predictionList. intros Hrun Hq.
  destruct predictions as [p|]; [|done].
  destruct (icdPredictions p) as [[|q0 preds]|] eqn:Hp; [done| |done].
  run_step Hrun es1 Hes1.
  run_step Hrun es2 Hes2.
  inversion Hrun; subst nodes edges; clear Hrun. simpl or_empty in Hq.
  assert (Hnode : has_node (predictionNodes (q0 :: preds)) (Some (pred_code q))).
  { unfold predictionNodes, has_node.
    setoid_rewrite list_elem_of_In. setoid_rewrite in_map_iff.
    eexists. split; [exists q; split; [reflexivity|]|reflexivity].
    apply list_elem_of_In. apply elem_of_take in Hq as (i & Hi & Hlt).
    apply elem_of_take. exists i. split; [done|lia]. }
  destruct (entities p); [|done].
  eapply has_node_mono; [|exact Hnode]. intros n. apply addEntityNodes_fallback_incl.
Qed.

(** *** Where the Builder cannot throw *)









(** *** Identifiers of entity nodes *)

Lemma findNode_None_notin nodes v :
  findNode nodes v = None → v ∉ node_id <$> nodes.
Proof.
  intros Hnone Hin. apply list_elem_of_fmap in Hin as (n & -> & Hn).
  apply (findNode_None _ _ Hnone). by exists n.
Qed.

(** On the API-data path the entity nodes keep the identifiers distinct. *)
Lemma addEntityNodes_NoDup ents nodes :
  NoDup (node_id <$> nodes) → NoDup (node_id <$> addEntityNodes ents nodes).
Proof.
  intros Hnd. unfold addEntityNodes.
  apply (fold_left_inv (fun ns => NoDup (node_id <$> ns))); [done|].
  intros ns [type labels] _ Hns.
  apply (fold_left_inv (fun ns => NoDup (node_id <$> ns))); [done|].
  intros ns' entity _ Hns'. cbv beta.
  destruct (findNode _ _) eqn:Hfind; [done|].
  rewrite fmap_app. apply NoDup_app. split; [done|]. split.
  - intros v Hv Hv'. simpl in Hv'. apply list_elem_of_singleton in Hv' as ->.
    by apply findNode_None_notin in Hfind.
  - simpl. apply NoDup_singleton.
Qed.

(** *** The worked example *)

(** Two numbers with different binary64 representations are different. *)
Lemma float_neq (a b : float) : Prim2SF a ≠ Prim2SF b → a ≠ b.
Proof. intros Hne ->. by apply Hne. Qed.

(** C1, as stated, fails: the graph built for the worked example has no
    parent-child edge at all (the parent derived for both "410.71" and
    "410.7" is "410", which is not a node), so none from "410.7" to "410.71";
    and no edge weight is the number 0.72 or 0.64. *)
Lemma C1_example_counterexample :
  ∃ nodes edges,
    GraphViewer None (Some example_prediction) = Ok (Graph nodes edges) ∧
    parentCode (split "." "410.71") = "410" ∧
    (∀ e, e ∈ edges → edge_type e ≠ Some "parent-child") ∧
    (∀ e, e ∈ edges → edge_weight e ≠ Some 0.72%float ∧
                      edge_weight e ≠ Some 0.64%float).
Proof.
  exists example_nodes, example_edges.
  split; [vm_compute; reflexivity|]. split; [reflexivity|].
  split; intros e He; unfold example_edges in He;
    repeat (apply elem_of_cons in He as [->|He]); try (by apply elem_of_nil in He);
    simpl; try done.
  all: split; intros [= Hw]; revert Hw; apply float_neq; vm_compute; discriminate.
Qed.

(** C1, amended: for the worked example, with no API data (graph data absent,
    or set from the predictions after a failed fetch), the Builder produces
    exactly the two ICD nodes "410.71" and "410.7" and the one entity node
    "entity_diseases_MI", no parent-child edge, and exactly two entity-icd
    edges from the entity node to "410.71" and to "410.7", whose weights are
    the binary64 products 0.9 * 0.8 and 0.8 * 0.8. *)
Theorem C1_example_graph :
  GraphViewer None (Some example_prediction)
    = Ok (Graph example_nodes example_edges) ∧
  GraphViewer (Some (catchGraphData example_prediction)) (Some example_prediction)
    = Ok (Graph example_nodes example_edges).
Proof. split; vm_compute; reflexivity. Qed.

(** *** Endpoints of edges *)




(** *** Malformed API data *)

(** C6: on API data with a node record that lacks its [id], the Builder
    throws a TypeError ([entityNode.id.startsWith] on [undefined]). *)
Theorem C6_idless_node_throws :
  GraphViewer (Some idless_graphData) (Some empty_prediction) = TypeError.
Proof. vm_compute. reflexivity. Qed.

(** An entity node without [type] makes the Builder throw as well, once a
    predicted code is a node. *)
Lemma typeless_entity_throws :
  GraphViewer
    (Some {| gd_nodes :=
               Some [ {| node_id := Some "410.71"; node_label := None;
                         node_type := Some "icd"; node_level := None;
                         node_probability := None |};
                      {| node_id := Some "entity_diseases_MI"; node_label := None;
                         node_type := None; node_level := None;
                         node_probability := None |} ];
             gd_edges := None;
             gd_entities := None |})
    (Some example_prediction)
  = TypeError.
Proof. vm_compute. reflexivity. Qed.

(** *** Entity-to-prediction edges *)

(** C7, as stated, fails: the entity node of the worked example gets no
    edge when the API data has no node for the predicted codes. *)
Lemma C7_unconnected_counterexample :
  ∃ nodes n,
    GraphViewer (Some unrelated_graphData) (Some example_prediction)
      = Ok (Graph nodes []) ∧
    n ∈ nodes ∧ node_id n = Some "entity_diseases_MI".
Proof.
  eexists _, _. split; [vm_compute; reflexivity|].
  split; [apply list_elem_of_further, list_elem_of_here|reflexivity].
Qed.

(** C7, amended: for every node of the built graph whose id starts with
    "entity_" and each of the first three predictions whose code is the id of
    a node of the built graph, the graph has an entity-icd edge from the
    entity node to that code, and its weight is probability * 0.8 for the
    type "entity_diseases", probability * 0.6 for "entity_symptoms" and 0.5
    for "entity_procedures" and "entity_medications". *)
Theorem C7_entity_edges graphData predictions nodes edges n id p :
  GraphViewer graphData predictions = Ok (Graph nodes edges) →
  n ∈ nodes → node_id n = Some id → startsWith id "entity_" = true →
  p ∈ take 3 (predictionList predictions) →
  has_node nodes (Some (pred_code p)) →
  ∃ ty w,
    node_type n = Some ty ∧
    {| edge_source := Some id; edge_target := Some (pred_code p);
       edge_type := Some "entity-icd"; edge_weight := Some w |} ∈ edges ∧
    w = entityWeight ty (pred_probability p) ∧
    (ty = "entity_diseases" → w = (pred_probability p * 0.8)%float) ∧
    (ty = "entity_symptoms" → w = (pred_probability p * 0.6)%float) ∧
    (ty = "entity_procedures" ∨ ty = "entity_medications" → w = 0.5%float).
Proof.
  intros Hrun Hn Hid Hpre Hp Hnode.
  destruct (GraphViewer_connects _ _ _ _ Hrun) as [edges0 Hconn].
  destruct (has_node_findNode _ _ Hnode) as [icdNode Hfind].
  destruct (connectEntities_complete _ _ _ _ _ _ _ _ Hconn Hn Hid Hpre Hp Hfind)
    as (ty & Hty & Hin).
  exists ty, (entityWeight ty (pred_probability p)).
  split; [done|]. split.
  - apply findNode_Some in Hfind as [_ Hicd].
    unfold entityIcdEdge in Hin. by rewrite Hid, Hicd in Hin.
  - split; [done|]. repeat split.
    + by intros ->.
    + by intros ->.
    + by intros [-> | ->].
Qed.

Lemma C7_entity_edges_witness :
  ∃ ty w,
    Some "entity_diseases" = Some ty ∧
    {| edge_source := Some "entity_diseases_MI"; edge_target := Some "410.71";
       edge_type := Some "entity-icd"; edge_weight := Some w |} ∈ example_edges ∧
    w = entityWeight ty 0.9 ∧
    (ty = "entity_diseases" → w = (0.9 * 0.8)%float) ∧
    (ty = "entity_symptoms" → w = (0.9 * 0.6)%float) ∧
    (ty = "entity_procedures" ∨ ty = "entity_medications" → w = 0.5%float).
Proof.
  apply (C7_entity_edges None (Some example_prediction) example_nodes example_edges
           {| node_id := Some "entity_diseases_MI"; node_label := Some "MI";
              node_type := Some "entity_diseases"; node_level := Some 0%nat;
              node_probability := None |}
           "entity_diseases_MI"
           {| pred_code := "410.71"; pred_description := Some "d1";
              pred_probability := 0.9 |}).
  - vm_compute. reflexivity.
  - apply list_elem_of_further, list_elem_of_further, list_elem_of_here.
  - reflexivity.
  - reflexivity.
  - apply list_elem_of_here.
  - eexists. split; [apply list_elem_of_here|reflexivity].
Defined.

(** *** Repeated entity labels *)

(** C8: without API data, a label that occurs twice in a category gives two
    nodes with the same identifier. *)
Theorem C8_fallback_duplicate_ids :
  ∃ nodes edges,
    GraphViewer None (Some repeated_prediction) = Ok (Graph nodes edges) ∧
    node_id <$> nodes
      = [Some "410.71"; Some "entity_diseases_MI"; Some "entity_diseases_MI"] ∧
    ¬ NoDup (node_id <$> nodes).
Proof.
  eexists _, _. split; [vm_compute; reflexivity|]. split; [reflexivity|].
  simpl. intros Hnd. apply NoDup_cons in Hnd as [_ Hnd].
  apply NoDup_cons in Hnd as [Hnotin _]. apply Hnotin, list_elem_of_here.
Qed.

(** ** Comparisons of binary64 numbers *)

Lemma SFcompare_antisym (a b : spec_float) :
  SFcompare b a = option_map CompOpp (SFcompare a b).
Proof.
  destruct a as [sa|sa| |sa ma ea], b as [sb|sb| |sb mb eb]; simpl; try done;
    try (by destruct sa); try (by destruct sb); try (by destruct sa, sb).
  destruct sa, sb; simpl; try done.
  - rewrite (Z.compare_antisym ea eb). destruct (ea ?= eb)%Z; simpl; try done.
    change (PosDef.Pos.compare_cont Eq mb ma) with (Pos.compare mb ma).
    change (PosDef.Pos.compare_cont Eq ma mb) with (Pos.compare ma mb).
    rewrite (Pos.compare_antisym mb ma). by rewrite CompOpp_involutive.
  - rewrite (Z.compare_antisym ea eb). destruct (ea ?= eb)%Z; simpl; try done.
    change (PosDef.Pos.compare_cont Eq mb ma) with (Pos.compare mb ma).
    change (PosDef.Pos.compare_cont Eq ma mb) with (Pos.compare ma mb).
    by rewrite (Pos.compare_antisym ma mb).
Qed.

Lemma SFcompare_refl (a : spec_float) :
  a ≠ S754_nan → SFcompare a a = Some Eq.
Proof.
  destruct a as [s|s| |s m e]; simpl; try done; intros _.
  - by destruct s.
  - change (PosDef.Pos.compare_cont Eq m m) with (Pos.compare m m).
    rewrite Z.compare_refl, Pos.compare_refl. by destruct s.
Qed.

Lemma SFcompare_nan_l (a : spec_float) : SFcompare S754_nan a = None.
Proof. done. Qed.

Lemma SFcompare_nan_r (a : spec_float) : SFcompare a S754_nan = None.
Proof. by destruct a. Qed.

Lemma SFcompare_is_Some (a b : spec_float) :
  a ≠ S754_nan → b ≠ S754_nan → is_Some (SFcompare a b).
Proof. destruct a, b; simpl; try done; eauto. Qed.

Lemma is_nan_false (x : float) : is_nan x = false ↔ Prim2SF x ≠ S754_nan.
Proof.
  unfold is_nan. rewrite FloatAxioms.eqb_spec. unfold SFeqb. split.
  - intros H Hn. rewrite Hn in H. done.
  - intros Hn. by rewrite SFcompare_refl.
Qed.

Lemma ltb_leb (a b : float) :
  PrimFloat.ltb a b = true → PrimFloat.leb a b = true.
Proof.
  rewrite FloatAxioms.ltb_spec, FloatAxioms.leb_spec. unfold SFltb, SFleb.
  by destruct (SFcompare _ _) as [[]|].
Qed.

Lemma leb_refl (a : float) : is_nan a = false → PrimFloat.leb a a = true.
Proof.
  rewrite is_nan_false, FloatAxioms.leb_spec. unfold SFleb. intros Hn.
  by rewrite SFcompare_refl.
Qed.

Lemma not_ltb_leb (a b : float) :
  is_nan a = false → is_nan b = false →
  PrimFloat.ltb a b = false → PrimFloat.leb b a = true.
Proof.
  rewrite !is_nan_false, FloatAxioms.ltb_spec, FloatAxioms.leb_spec. unfold SFltb, SFleb.
  intros Ha Hb. rewrite (SFcompare_antisym (Prim2SF a) (Prim2SF b)).
  destruct (SFcompare_is_Some _ _ Ha Hb) as [c ->]. by destruct c.
Qed.

Lemma leb_not_nan (a b : float) :
  PrimFloat.leb a b = true → is_nan a = false ∧ is_nan b = false.
Proof.
  rewrite !is_nan_false, FloatAxioms.leb_spec. unfold SFleb. intros H.
  split; intros Hn; rewrite Hn in H;
    [by rewrite SFcompare_nan_l in H|by rewrite SFcompare_nan_r in H].
Qed.




(** ** Subtraction and rounding of binary64 numbers *)

Section Rounding.

Local Open Scope Z_scope.
















End Rounding.

(** ** The layout *)




Lemma findCenter_nil degrees : findCenter [] degrees = None.
Proof. done. Qed.


Section LayoutFacts.

Variables Math_cos Math_sin : float → float.




(** *** No missing force accumulator *)










End LayoutFacts.

(** *** Clamping *)

(** What holds of every clamped coordinate holds, after an iteration, of
    the coordinates of every node. *)
Section Clamping.

Variables width height : float.
Variables okx oky : float → Prop.
Hypothesis Hokx : ∀ c, okx (clamp width c).
Hypothesis Hoky : ∀ c, oky (clamp height c).






End Clamping.

(** *** An empty node list *)

Section EmptyNodes.

Variables width height : float.



End EmptyNodes.

(** *** What the layout reads of its arguments *)

Lemma same_ids_refl nodes : same_ids nodes nodes.
Proof. by apply Forall2_same_length_lookup_2; [|intros; simplify_eq]. Qed.

Lemma same_endpoints_refl edges : same_endpoints edges edges.
Proof. by apply Forall2_same_length_lookup_2; [|intros; simplify_eq]. Qed.







Section SameLayout.

Variables Math_cos Math_sin : float → float.







End SameLayout.

(** *** Bounds, entries and determinism of the layout *)





Lemma calculateNodePositions_nil_nil (Math_cos Math_sin : float → float) :
  calculateNodePositions Math_cos Math_sin [] [] 800 600
    = Ok {[ "undefined" := {| px := 400; py := 300 |} ]}.
Proof. vm_compute. reflexivity. Qed.

Lemma calculateNodePositions_nil_throws (Math_cos Math_sin : float → float) :
  calculateNodePositions Math_cos Math_sin []
    [ {| edge_source := None; edge_target := None; edge_type := None;
         edge_weight := None |} ] 800 600
  = TypeError.
Proof. vm_compute. reflexivity. Qed.

(** The component never passes a zero (or [NaN]) width or height on. *)
Lemma updateDimensions_truthy rectWidth rectHeight :
  truthy (updateDimensions rectWidth rectHeight).1 = true ∧
  truthy (updateDimensions rectWidth rectHeight).2 = true.
Proof.
  unfold updateDimensions, or_default. simpl.
  split; [destruct (truthy rectWidth) eqn:H|destruct (truthy rectHeight) eqn:H];
    done.
Qed.

Lemma updateDimensions_zero : updateDimensions 0 0 = (800%float, 600%float).
Proof. reflexivity. Qed.








(** ** The drawing *)


Section RenderingFacts.

Variables Math_cos Math_sin : float → float.


End RenderingFacts.







(** ** Degrees and the centre *)








(** ** Codes and their parents *)

Lemma split_nonempty sep s : split sep s ≠ [].
Proof.
  destruct s as [|c s]; simpl; [done|].
  destruct (Ascii.eqb c sep); [done|]. by destruct (split sep s).
Qed.

Lemma append_assoc (a b c : string) :
  ((a +:+ b) +:+ c = a +:+ (b +:+ c))%string.
Proof.
  induction a as [|ch a IH]; [done|].
  change (String ch ((a +:+ b) +:+ c) = String ch (a +:+ b +:+ c))%string.
  by rewrite IH.
Qed.

Lemma concat_snoc sep (l : list string) x :
  l ≠ [] → String.concat sep (l ++ [x]) = (String.concat sep l +:+ sep +:+ x)%string.
Proof.
  induction l as [|a l IH]; [done|]. intros _.
  destruct l as [|b l].
  - reflexivity.
  - change ((a :: b :: l) ++ [x]) with (a :: ((b :: l) ++ [x])).
    change (String.concat sep (a :: (b :: l) ++ [x]))
      with (a +:+ sep +:+ String.concat sep ((b :: l) ++ [x]))%string.
    rewrite IH by done.
    change (String.concat sep (a :: b :: l))
      with (a +:+ sep +:+ String.concat sep (b :: l))%string.
    by rewrite !append_assoc.
Qed.

(** Joining what [split] gave returns the string. *)
Lemma join_split sep s : join (String sep EmptyString) (split sep s) = s.
Proof.
  unfold join. induction s as [|c s IH]; [done|]. simpl split.
  destruct (Ascii.eqb_spec c sep) as [->|Hne].
  - pose proof (split_nonempty sep s) as Hs.
    destruct (split sep s) as [|h t]; [done|].
    change (String.concat (String sep "") ("" :: h :: t))
      with (String sep (String.concat (String sep "") (h :: t))).
    by rewrite IH.
  - destruct (split sep s) as [|h t] eqn:Hs; [by apply split_nonempty in Hs|].
    destruct t as [|h' t].
    + simpl in *. by rewrite IH.
    + change (String.concat (String sep "") (String c h :: h' :: t))
        with (String c (String.concat (String sep "") (h :: h' :: t))).
      by rewrite IH.
Qed.

Lemma split_segments sep s seg :
  seg ∈ split sep s → includes seg (String sep EmptyString) = false.
Proof.
  revert seg. induction s as [|c s IH]; intros seg; simpl split.
  - intros Hseg. by apply list_elem_of_singleton in Hseg as ->.
  - destruct (Ascii.eqb_spec c sep) as [->|Hne].
    + intros Hseg. apply elem_of_cons in Hseg as [->|Hseg]; [done|auto].
    + destruct (split sep s) as [|h t] eqn:Hs; [by apply split_nonempty in Hs|].
      intros Hseg. apply elem_of_cons in Hseg as [->|Hseg].
      * cbn [includes String.prefix].
        destruct (ascii_dec sep c) as [Heq|_]; [by rewrite Heq in Hne|].
        simpl. apply IH. left.
      * apply IH. by right.
Qed.

(** An id with a dot is its parent code, a dot, and a last segment without
    a dot. *)
Lemma parentCode_prefix id :
  (1 < length (split "." id))%nat →
  ∃ segment,
    id = (parentCode (split "." id) +:+ "." +:+ segment)%string
    ∧ includes segment "." = false.
Proof.
  intros Hlen. pose proof (split_nonempty "." id) as Hne.
  pose proof (app_removelast_last "" Hne) as Hparts.
  exists (List.last (split "." id) ""). split.
  - unfold parentCode, join. rewrite <- concat_snoc.
    + rewrite <- Hparts. symmetry. apply join_split.
    + intros Hnil. rewrite Hnil in Hparts. rewrite Hparts in Hlen. simpl in Hlen. lia.
  - apply (split_segments "." id). rewrite Hparts at 2.
    apply elem_of_app. right. left.
Qed.

Lemma or_default_truthy x d : truthy d = true → truthy (or_default x d) = true.
Proof. unfold or_default. by destruct (truthy x) eqn:Hx. Qed.

Lemma opt_or_default_truthy v d :
  truthy d = true → truthy (opt_or_default v d) = true.
Proof. destruct v; simpl; [apply or_default_truthy|done]. Qed.

Lemma hierarchyEdges_fallback_shape gnodes edges0 edges e :
  hierarchyEdges_fallback gnodes edges0 = Ok edges →
  e ∈ edges → e ∈ edges0 ∨ parentChildShape e.
Proof.
  unfold hierarchyEdges_fallback. intros Hrun. revert e.
  eapply (forEachM_inv (fun es => ∀ e, e ∈ es → e ∈ edges0 ∨ parentChildShape e));
    [| |exact Hrun]; [auto|].
  intros es node es' Hnode Hes Hbody e He. cbv beta in Hbody.
  destruct (node_id node) as [id|] eqn:Hid; [|done]. cbv zeta in Hbody.
  destruct (Nat.ltb_spec 1 (length (split "." id))) as [Hlen|Hlen];
    [|by inversion Hbody; subst; auto].
  destruct (findNode gnodes _) as [parent|]; [|by inversion Hbody; subst; auto].
  inversion Hbody; subst es'. apply elem_of_app in He as [He|He]; [auto|].
  apply list_elem_of_singleton in He as ->. right.
  destruct (parentCode_prefix id Hlen) as (segment & Hsplit & Hseg).
  exists (parentCode (split "." id)), segment, (opt_or_default (node_probability node) 0.5).
  simpl. rewrite <- Hsplit. by rewrite opt_or_default_truthy.
Qed.

Lemma hierarchyEdges_shape predictions gnodes edges0 e :
  e ∈ hierarchyEdges predictions gnodes edges0 →
  e ∈ edges0 ∨ parentChildShape e.
Proof.
  unfold hierarchyEdges. revert e.
  apply (fold_left_inv (fun es => ∀ e, e ∈ es → e ∈ edges0 ∨ parentChildShape e));
    [auto|].
  intros es node Hnode Hes e. cbv beta.
  destruct (node_id node) as [id|] eqn:Hid; [|auto].
  destruct (_ && _); [|auto]. cbv zeta.
  destruct (Nat.ltb_spec 1 (length (split "." id))) as [Hlen|Hlen]; [|auto].
  destruct (findNode gnodes _) as [parent|]; [|auto].
  destruct (existsb _ es); [auto|].
  intros He. apply elem_of_app in He as [He|He]; [auto|].
  apply list_elem_of_singleton in He as ->. right.
  destruct (parentCode_prefix id Hlen) as (segment & Hsplit & Hseg).
  eexists (parentCode (split "." id)), segment, _.
  simpl. rewrite <- Hsplit. by rewrite opt_or_default_truthy.
Qed.

Lemma connectEntity_shape allNodes preds edges0 entityNode edges e :
  entityNode ∈ allNodes →
  connectEntity allNodes preds edges0 entityNode = Ok edges →
  e ∈ edges → e ∈ edges0 ∨ entityIcdShape allNodes preds e.
Proof.
  unfold connectEntity. intros Hent Hrun.
  destruct (node_id entityNode) as [id|] eqn:Hid; [|done].
  destruct (startsWith id "entity_") eqn:Hpre; [|by inversion Hrun; subst; auto].
  revert e.
  eapply (forEachM_inv
            (fun es => ∀ e, e ∈ es → e ∈ edges0 ∨ entityIcdShape allNodes preds e));
    [| |exact Hrun]; [auto|].
  intros es icdPred es' Hq Hes Hbody e He. cbv beta in Hbody.
  destruct (findNode allNodes _) as [icdNode|] eqn:Hfind;
    [|by inversion Hbody; subst; auto].
  destruct (node_type entityNode) as [ty|] eqn:Hty; [|done].
  inversion Hbody; subst es'. apply elem_of_app in He as [He|He]; [auto|].
  apply list_elem_of_singleton in He as ->. right.
  apply findNode_Some in Hfind as [_ Hicd].
  exists entityNode, id, ty, icdPred. simpl. by rewrite Hicd.
Qed.

Lemma connectEntities_shape allNodes preds edges0 edges e :
  connectEntities allNodes preds edges0 = Ok edges →
  e ∈ edges → e ∈ edges0 ∨ entityIcdShape allNodes preds e.
Proof.
  unfold connectEntities. intros Hrun. revert e.
  eapply (forEachM_inv
            (fun es => ∀ e, e ∈ es → e ∈ edges0 ∨ entityIcdShape allNodes preds e));
    [| |exact Hrun]; [auto|].
  intros es node es' Hnode Hes Hbody e He.
  destruct (connectEntity_shape _ _ _ _ _ e Hnode Hbody He); auto.
Qed.

(** X6: the Builder adds two kinds of edges only.  Every edge of its output
    is an edge of the API data, or a parent-child edge from an id to that id
    extended by a dot and one dot-free segment (with a weight that is not
    [0] or [NaN]), or an entity-icd edge from a node whose id starts with
    "entity_" to the code of one of the first three predictions, weighted by
    [entityWeight] of the node's type and that prediction's probability. *)
Theorem X6_kinds_of_edges graphData predictions nodes edges e :
  GraphViewer graphData predictions = Ok (Graph nodes edges) →
  e ∈ edges →
  e ∈ externalEdges graphData
  ∨ parentChildShape e
  ∨ entityIcdShape nodes (predictionList predictions) e.
Proof.
  intros Hrun He.
  assert (Hfb : fallbackGraph predictions = Ok (Graph nodes edges) →
                parentChildShape e
                ∨ entityIcdShape nodes (predictionList predictions) e).
  { clear Hrun. unfold fallbackGraph. intros Hrun.
    destruct predictions as [p|]; [|done]. simpl predictionList.
    destruct (icdPredictions p) as [[|q preds]|] eqn:Hp; [done| |done].
    run_step Hrun es1 H1. run_step Hrun es2 H2.
    inversion Hrun; subst nodes edges; clear Hrun. simpl or_empty.
    destruct (connectEntities_shape _ _ _ _ e H2 He) as [He1|]; [|auto].
    destruct (hierarchyEdges_fallback_shape _ _ _ e H1 He1) as [He0|]; [|auto].
    by apply elem_of_nil in He0. }
  unfold GraphViewer, externalEdges in *.
  destruct graphData as [gd|]; [|auto].
  destruct (gd_nodes gd) as [[|n ns]|]; [auto| |auto].
  unfold apiGraph in Hrun. run_step Hrun es2 H2.
  inversion Hrun; subst nodes edges; clear Hrun.
  destruct (connectEntities_shape _ _ _ _ e H2 He) as [He1|]; [|auto].
  destruct (hierarchyEdges_shape _ _ _ e He1); auto.
Qed.

Lemma X6_kinds_of_edges_witness :
  {| edge_source := Some "entity_diseases_MI"; edge_target := Some "410.71";
     edge_type := Some "entity-icd"; edge_weight := Some (0.9 * 0.8)%float |}
    ∈ externalEdges None
  ∨ parentChildShape
      {| edge_source := Some "entity_diseases_MI"; edge_target := Some "410.71";
         edge_type := Some "entity-icd"; edge_weight := Some (0.9 * 0.8)%float |}
  ∨ entityIcdShape single_entity_nodes
      (predictionList (Some single_entity_prediction))
      {| edge_source := Some "entity_diseases_MI"; edge_target := Some "410.71";
         edge_type := Some "entity-icd"; edge_weight := Some (0.9 * 0.8)%float |}.
Proof.
  apply (X6_kinds_of_edges None (Some single_entity_prediction)
           single_entity_nodes single_entity_edges).
  - vm_compute. reflexivity.
  - apply list_elem_of_here.
Defined.

(** ** No second parent-child edge on the API-data path *)

Lemma existsb_false {A : Type} (f : A → bool) (l : list A) x :
  existsb f l = false → x ∈ l → f x = false.
Proof.
  intros Hex Hx. destruct (f x) eqn:Hfx; [|done].
  assert (existsb f l = true); [|congruence].
  apply existsb_exists. exists x. split; [by apply list_elem_of_In|done].
Qed.

Lemma hierarchyEdges_added predictions gnodes edges0 :
  ∃ added,
    hierarchyEdges predictions gnodes edges0 = edges0 ++ added
    ∧ NoDup (edgeEnds <$> added)
    ∧ (∀ a, a ∈ added → edgeEnds a ∉ edgeEnds <$> edges0)
    ∧ (∀ a, a ∈ added → parentChildShape a ∧ anchored gnodes a).
Proof.
  unfold hierarchyEdges.
  apply (fold_left_inv
           (fun es => ∃ added, es = edges0 ++ added
                      ∧ NoDup (edgeEnds <$> added)
                      ∧ (∀ a, a ∈ added → edgeEnds a ∉ edgeEnds <$> edges0)
                      ∧ (∀ a, a ∈ added → parentChildShape a ∧ anchored gnodes a))).
  - exists []. rewrite app_nil_r. split; [done|]. split; [constructor|].
    split; intros a Ha; by apply elem_of_nil in Ha.
  - intros es node Hnode (added & -> & Hnd & Hfresh & Hshape). cbv beta.
    assert (Hsame : ∃ added', edges0 ++ added = edges0 ++ added'
                      ∧ NoDup (edgeEnds <$> added')
                      ∧ (∀ a, a ∈ added' → edgeEnds a ∉ edgeEnds <$> edges0)
                      ∧ (∀ a, a ∈ added' → parentChildShape a ∧ anchored gnodes a))
      by (exists added; done).
    destruct (node_id node) as [id|] eqn:Hid; [|done].
    destruct (_ && _); [|done]. cbv zeta.
    destruct (Nat.ltb_spec 1 (length (split "." id))) as [Hlen|Hlen]; [|done].
    destruct (findNode gnodes _) as [parent|] eqn:Hfind; [|done].
    destruct (existsb _ (edges0 ++ added)) eqn:Hex; [done|].
    set (new := parentChildEdge _ _ _).
    assert (Hnew : edgeEnds new ∉ edgeEnds <$> (edges0 ++ added)).
    { intros Hin. apply list_elem_of_fmap in Hin as (e' & Hends & He').
      pose proof (existsb_false _ _ e' Hex He') as Hf. cbv beta in Hf.
      unfold edgeEnds in Hends. simpl in Hends. inversion Hends as [[Hs Ht]].
      unfold strict_eq in Hf. rewrite <- Hs, <- Ht in Hf.
      by rewrite !bool_decide_eq_true_2 in Hf. }
    rewrite fmap_app, elem_of_app in Hnew.
    exists (added ++ [new]). split; [by rewrite app_assoc|]. split.
    + rewrite fmap_app. apply NoDup_app. split; [done|]. split.
      * intros x Hx Hx'. simpl in Hx'. apply list_elem_of_singleton in Hx' as ->.
        apply Hnew. by right.
      * simpl. apply NoDup_singleton.
    + split.
      * intros a Ha. apply elem_of_app in Ha as [Ha|Ha]; [by apply Hfresh|].
        apply list_elem_of_singleton in Ha as ->. intros Hin. apply Hnew. by left.
      * intros a Ha. apply elem_of_app in Ha as [Ha|Ha]; [by apply Hshape|].
        apply list_elem_of_singleton in Ha as ->. split.
        -- destruct (parentCode_prefix id Hlen) as (segment & Hsplit & Hseg).
           eexists (parentCode (split "." id)), segment, _.
           simpl. rewrite <- Hsplit. by rewrite opt_or_default_truthy.
        -- apply findNode_Some in Hfind as [Hp Hpid].
           split; simpl; [by exists parent|by exists node].
Qed.

(** ** What the Builder appends *)

Lemma addEntityNodes_added ents gnodes :
  ∃ added,
    addEntityNodes ents gnodes = gnodes ++ added
    ∧ NoDup (node_id <$> added)
    ∧ (∀ a, a ∈ added → node_id a ∉ node_id <$> gnodes)
    ∧ (∀ a, a ∈ added → fromEntities ents a).
Proof.
  unfold addEntityNodes.
  set (P := fun ns : list Node =>
              ∃ added, ns = gnodes ++ added
                       ∧ NoDup (node_id <$> added)
                       ∧ (∀ a, a ∈ added → node_id a ∉ node_id <$> gnodes)
                       ∧ (∀ a, a ∈ added → fromEntities ents a)).
  apply (fold_left_inv P).
  - exists []. rewrite app_nil_r. split; [done|]. split; [constructor|].
    split; intros a Ha; by apply elem_of_nil in Ha.
  - intros ns [type labels] Hcat HP. apply (fold_left_inv P); [done|].
    clear ns HP. intros ns label Hlabel (added & -> & Hnd & Hfresh & Horigin).
    cbv beta.
    destruct (findNode (gnodes ++ added) _) eqn:Hfind; [by exists added|].
    apply findNode_None_notin in Hfind. rewrite fmap_app, elem_of_app in Hfind.
    exists (added ++ [entityNode type label]).
    split; [by rewrite app_assoc|]. split.
    + rewrite fmap_app. apply NoDup_app. split; [done|]. split.
      * intros x Hx Hx'. simpl in Hx'. apply list_elem_of_singleton in Hx' as ->.
        apply Hfind. by right.
      * simpl. apply NoDup_singleton.
    + split.
      * intros a Ha. apply elem_of_app in Ha as [Ha|Ha]; [by apply Hfresh|].
        apply list_elem_of_singleton in Ha as ->. intros Hin. apply Hfind. by left.
      * intros a Ha. apply elem_of_app in Ha as [Ha|Ha]; [by apply Horigin|].
        apply list_elem_of_singleton in Ha as ->. by exists type, labels, label.
Qed.

Lemma length_take_le3 {A : Type} (l : list A) : (length (take 3 l) ≤ 3)%nat.
Proof. rewrite length_take. lia. Qed.

Lemma addEntityNodes_length ents nodes :
  (length (addEntityNodes ents nodes) ≤ length nodes + 3 * length ents)%nat.
Proof.
  unfold addEntityNodes. revert nodes.
  induction ents as [|[type labels] ents IH]; intros nodes; simpl; [lia|].
  etrans; [apply IH|].
  assert (Hinner : ∀ (l : list string) ns,
            (length (fold_left
                       (fun nodes entity =>
                          match findNode nodes (Some (entityNodeId type entity)) with
                          | Some _ => nodes
                          | None => nodes ++ [entityNode type entity]
                          end) l ns) ≤ length ns + length l)%nat).
  { induction l as [|x l IHl]; intros ns; simpl; [lia|].
    etrans; [apply IHl|]. destruct (findNode ns _); [lia|].
    rewrite length_app. simpl. lia. }
  specialize (Hinner (take 3 (or_empty labels)) nodes).
  pose proof (length_take_le3 (or_empty labels)). lia.
Qed.

Lemma addEntityNodes_fallback_length ents nodes :
  (length (addEntityNodes_fallback ents nodes) ≤ length nodes + 3 * length ents)%nat.
Proof.
  unfold addEntityNodes_fallback. revert nodes.
  induction ents as [|[type labels] ents IH]; intros nodes; simpl; [lia|].
  etrans; [apply IH|].
  assert (Hinner : ∀ (l : list string) ns,
            (length (fold_left
                       (fun nodes entity => nodes ++ [entityNode type entity]) l ns)
             = length ns + length l)%nat).
  { induction l as [|x l IHl]; intros ns; simpl; [lia|].
    rewrite IHl, length_app. simpl. lia. }
  rewrite Hinner. pose proof (length_take_le3 (or_empty labels)). lia.
Qed.

Lemma connectEntity_added allNodes preds edges0 entityNode edges :
  entityNode ∈ allNodes →
  connectEntity allNodes preds edges0 entityNode = Ok edges →
  ∃ added, edges = edges0 ++ added
           ∧ (length added ≤ 3)%nat
           ∧ ∀ a, a ∈ added → entityIcdShape allNodes preds a.
Proof.
  unfold connectEntity. intros Hent Hrun.
  assert (Hnone : ∃ added, edges0 = edges0 ++ added ∧ (length added ≤ 3)%nat
                           ∧ ∀ a, a ∈ added → entityIcdShape allNodes preds a).
  { exists []. rewrite app_nil_r. split; [done|]. split; [simpl; lia|].
    intros a Ha. by apply elem_of_nil in Ha. }
  destruct (node_id entityNode) as [id|] eqn:Hid; [|done].
  destruct (startsWith id "entity_") eqn:Hpre; [|by inversion Hrun; subst].
  assert (Hgen : ∀ l es es',
            (∀ q, q ∈ l → q ∈ take 3 preds) →
            forEachM (fun edges icdPred =>
                        match findNode allNodes (Some (pred_code icdPred)) with
                        | Some icdNode =>
                            match node_type entityNode with
                            | None => TypeError
                            | Some ty =>
                                Ok (edges ++
                                    [entityIcdEdge entityNode icdNode
                                       (entityWeight ty (pred_probability icdPred))])
                            end
                        | None => Ok edges
                        end) l es = Ok es' →
            ∃ added, es' = es ++ added ∧ (length added ≤ length l)%nat
                     ∧ ∀ a, a ∈ added → entityIcdShape allNodes preds a).
  { induction l as [|q l IHl]; intros es es' Hsub Hl; simpl in Hl.
    - inversion Hl; subst. exists []. rewrite app_nil_r. split; [done|].
      split; [simpl; lia|]. intros a Ha. by apply elem_of_nil in Ha.
    - run_step Hl es1 Hq.
      destruct (IHl es1 es') as (added & -> & Hlen & Hshape);
        [intros q' Hq'; apply Hsub; by right|done|].
      destruct (findNode allNodes (Some (pred_code q))) as [icdNode|] eqn:Hfind.
      + destruct (node_type entityNode) as [ty|] eqn:Hty; [|done].
        inversion Hq; subst es1.
        exists ([entityIcdEdge entityNode icdNode
                   (entityWeight ty (pred_probability q))] ++ added).
        split; [by rewrite app_assoc|]. split; [simpl; lia|].
        intros a Ha. apply elem_of_app in Ha as [Ha|Ha]; [|by apply Hshape].
        apply list_elem_of_singleton in Ha as ->.
        apply findNode_Some in Hfind as [_ Hicd].
        exists entityNode, id, ty, q. simpl. rewrite Hicd.
        repeat split; try done. apply Hsub. left.
      + inversion Hq; subst es1. exists added. split; [done|].
        split; [simpl; lia|done]. }
  destruct (Hgen _ _ _ (fun q Hq => Hq) Hrun) as (added & -> & Hlen & Hshape).
  exists added. split; [done|]. split; [|done].
  pose proof (length_take_le3 preds). lia.
Qed.

Lemma connectEntities_added allNodes preds edges0 edges :
  connectEntities allNodes preds edges0 = Ok edges →
  ∃ added, edges = edges0 ++ added
           ∧ (length added ≤ 3 * length allNodes)%nat
           ∧ ∀ a, a ∈ added → entityIcdShape allNodes preds a.
Proof.
  unfold connectEntities.
  assert (Hgen : ∀ l es es',
            (∀ n, n ∈ l → n ∈ allNodes) →
            forEachM (connectEntity allNodes preds) l es = Ok es' →
            ∃ added, es' = es ++ added ∧ (length added ≤ 3 * length l)%nat
                     ∧ ∀ a, a ∈ added → entityIcdShape allNodes preds a).
  { induction l as [|n l IHl]; intros es es' Hsub Hl; simpl in Hl.
    - inversion Hl; subst. exists []. rewrite app_nil_r. split; [done|].
      split; [simpl; lia|]. intros a Ha. by apply elem_of_nil in Ha.
    - run_step Hl es1 Hn.
      destruct (connectEntity_added allNodes preds es n es1)
        as (added1 & -> & Hlen1 & Hshape1); [apply Hsub; left|done|].
      destruct (IHl (es ++ added1) es') as (added & -> & Hlen & Hshape);
        [intros n' Hn'; apply Hsub; by right|done|].
      exists (added1 ++ added). split; [by rewrite app_assoc|].
      split; [rewrite length_app; simpl; lia|].
      intros a Ha. apply elem_of_app in Ha as [Ha|Ha]; auto. }
  intros Hrun. by apply (Hgen allNodes edges0 edges).
Qed.

(** X7: with API data that has nodes, the graph keeps the API nodes, in
    order and in front, and appends only entity nodes made for one of the
    first three labels of a category of the API data's entity groups, each
    with an identifier that no earlier node has (at most three per
    category). *)
Theorem X7_api_nodes_kept gd predictions n l nodes edges :
  gd_nodes gd = Some (n :: l) →
  GraphViewer (Some gd) predictions = Ok (Graph nodes edges) →
  ∃ added,
    nodes = (n :: l) ++ added
    ∧ NoDup (node_id <$> added)
    ∧ (∀ a, a ∈ added →
         (node_id a ∉ node_id <$> (n :: l))
         ∧ fromEntities (entitySource gd predictions) a)
    ∧ (length added ≤ 3 * length (entitySource gd predictions))%nat.
Proof.
  unfold GraphViewer. intros -> Hrun. unfold apiGraph in Hrun.
  run_step Hrun es2 H2. inversion Hrun; subst nodes edges; clear Hrun.
  unfold entitySource.
  destruct (gd_entities gd) as [ents|], predictions as [p|];
    try (exists []; rewrite app_nil_r; split; [done|]; split; [constructor|];
         split; [by intros a Ha; apply elem_of_nil in Ha|simpl; lia]).
  destruct (addEntityNodes_added ents (n :: l)) as (added & Heq & Hnd & Hfresh & Horigin).
  exists added. split; [done|]. split; [done|]. split; [by auto|].
  pose proof (addEntityNodes_length ents (n :: l)) as Hlen.
  rewrite Heq, length_app in Hlen. lia.
Qed.

Lemma X7_api_nodes_kept_witness :
  ∃ added,
    [ {| node_id := Some "X"; node_label := Some "x"; node_type := Some "icd";
         node_level := None; node_probability := None |};
      entityNode "diseases" "MI" ]
    = ({| node_id := Some "X"; node_label := Some "x"; node_type := Some "icd";
          node_level := None; node_probability := None |} :: []) ++ added
    ∧ NoDup (node_id <$> added)
    ∧ (∀ a, a ∈ added →
         (node_id a ∉ node_id <$> [ {| node_id := Some "X"; node_label := Some "x";
                                       node_type := Some "icd"; node_level := None;
                                       node_probability := None |} ])
         ∧ fromEntities
             (entitySource unrelated_graphData (Some example_prediction)) a)
    ∧ (length added
       ≤ 3 * length (entitySource unrelated_graphData (Some example_prediction)))%nat.
Proof.
  apply (X7_api_nodes_kept unrelated_graphData (Some example_prediction) _ _ _ []).
  - reflexivity.
  - vm_compute. reflexivity.
Defined.

(** X8: with API data that has nodes, the edges of the graph are the API
    edges, in order and in front, then parent-child edges between API nodes,
    no two of them and none of them together with an API edge joining the
    same ordered pair of ids, then entity-icd edges, at most three per node
    of the graph. *)
Theorem X8_api_edges_kept gd predictions n l nodes edges :
  gd_nodes gd = Some (n :: l) →
  GraphViewer (Some gd) predictions = Ok (Graph nodes edges) →
  ∃ hierarchy entity,
    edges = or_empty (gd_edges gd) ++ hierarchy ++ entity
    ∧ NoDup (edgeEnds <$> hierarchy)
    ∧ (∀ a, a ∈ hierarchy →
         (edgeEnds a ∉ edgeEnds <$> or_empty (gd_edges gd))
         ∧ parentChildShape a ∧ anchored (n :: l) a)
    ∧ (∀ a, a ∈ entity → entityIcdShape nodes (predictionList predictions) a)
    ∧ (length entity ≤ 3 * length nodes)%nat.
Proof.
  unfold GraphViewer. intros -> Hrun. unfold apiGraph in Hrun.
  run_step Hrun es2 H2. inversion Hrun; subst nodes edges; clear Hrun.
  destruct (hierarchyEdges_added predictions (n :: l) (or_empty (gd_edges gd)))
    as (hierarchy & Hh & Hnd & Hfresh & Hshape).
  rewrite Hh in H2.
  destruct (connectEntities_added _ _ _ _ H2) as (entity & -> & Hlen & Hent).
  exists hierarchy, entity. split; [by rewrite app_assoc|].
  split; [done|]. split; [|done].
  intros a Ha. destruct (Hshape a Ha). auto.
Qed.

Lemma X8_api_edges_kept_witness :
  ∃ hierarchy entity,
    [ {| edge_source := Some "A"; edge_target := Some "Z";
         edge_type := Some "related"; edge_weight := Some 1%float |} ]
    = or_empty (gd_edges dangling_graphData) ++ hierarchy ++ entity
    ∧ NoDup (edgeEnds <$> hierarchy)
    ∧ (∀ a, a ∈ hierarchy →
         (edgeEnds a ∉ edgeEnds <$> or_empty (gd_edges dangling_graphData))
         ∧ parentChildShape a
         ∧ anchored [ {| node_id := Some "A"; node_label := Some "a";
                         node_type := Some "icd"; node_level := None;
                         node_probability := None |} ] a)
    ∧ (∀ a, a ∈ entity →
         entityIcdShape
           [ {| node_id := Some "A"; node_label := Some "a";
                node_type := Some "icd"; node_level := None;
                node_probability := None |} ] (predictionList None) a)
    ∧ (length entity ≤ 3 * 1)%nat.
Proof.
  apply (X8_api_edges_kept dangling_graphData None _ []).
  - reflexivity.
  - vm_compute. reflexivity.
Defined.

(** ** The size of the graph built without API data *)

Lemma addEntityNodes_fallback_added ents nodes :
  ∃ added,
    addEntityNodes_fallback ents nodes = nodes ++ added
    ∧ ∀ a, a ∈ added → fromEntities ents a.
Proof.
  unfold addEntityNodes_fallback.
  set (P := fun ns : list Node =>
              ∃ added, ns = nodes ++ added ∧ ∀ a, a ∈ added → fromEntities ents a).
  apply (fold_left_inv P).
  - exists []. rewrite app_nil_r. split; [done|].
    intros a Ha. by apply elem_of_nil in Ha.
  - intros ns [type labels] Hcat HP. apply (fold_left_inv P); [done|].
    clear ns HP. intros ns label Hlabel (added & -> & Horigin).
    exists (added ++ [entityNode type label]). split; [by rewrite app_assoc|].
    intros a Ha. apply elem_of_app in Ha as [Ha|Ha]; [by apply Horigin|].
    apply list_elem_of_singleton in Ha as ->. by exists type, labels, label.
Qed.

Lemma hierarchyEdges_fallback_added gnodes edges0 edges :
  hierarchyEdges_fallback gnodes edges0 = Ok edges →
  ∃ added, edges = edges0 ++ added
           ∧ (length added ≤ length gnodes)%nat
           ∧ ∀ a, a ∈ added → parentChildShape a ∧ anchored gnodes a.
Proof.
  unfold hierarchyEdges_fallback.
  assert (Hgen : ∀ l es es',
            (∀ n, n ∈ l → n ∈ gnodes) →
            forEachM (fun edges node =>
                        match node_id node with
                        | None => TypeError
                        | Some id =>
                            let parts := split "." id in
                            if (1 <? length parts)%nat then
                              match findNode gnodes (Some (parentCode parts)) with
                              | Some _ =>
                                  Ok (edges ++
                                      [parentChildEdge (parentCode parts) (Some id)
                                         (opt_or_default (node_probability node) 0.5)])
                              | None => Ok edges
                              end
                            else Ok edges
                        end) l es = Ok es' →
            ∃ added, es' = es ++ added ∧ (length added ≤ length l)%nat
                     ∧ ∀ a, a ∈ added → parentChildShape a ∧ anchored gnodes a).
  { induction l as [|n l IHl]; intros es es' Hsub Hl; simpl in Hl.
    - inversion Hl; subst. exists []. rewrite app_nil_r. split; [done|].
      split; [simpl; lia|]. intros a Ha. by apply elem_of_nil in Ha.
    - run_step Hl es1 Hn.
      destruct (IHl es1 es') as (added & -> & Hlen & Hshape);
        [intros n' Hn'; apply Hsub; by right|done|].
      destruct (node_id n) as [id|] eqn:Hid; [|done]. cbv zeta in Hn.
      destruct (Nat.ltb_spec 1 (length (split "." id))) as [Hdot|Hdot].
      + destruct (findNode gnodes _) as [parent|] eqn:Hfind.
        * inversion Hn; subst es1.
          eexists ([_] ++ added). split; [by rewrite app_assoc|].
          split; [simpl; lia|].
          intros a Ha. apply elem_of_app in Ha as [Ha|Ha]; [|by apply Hshape].
          apply list_elem_of_singleton in Ha as ->. split.
          -- destruct (parentCode_prefix id Hdot) as (segment & Hsplit & Hseg).
             eexists (parentCode (split "." id)), segment, _.
             simpl. rewrite <- Hsplit. by rewrite opt_or_default_truthy.
          -- apply findNode_Some in Hfind as [Hp Hpid].
             split; simpl; [by exists parent|exists n; split; [|done]].
             apply Hsub. left.
        * inversion Hn; subst es1. exists added. split; [done|].
          split; [simpl; lia|done].
      + inversion Hn; subst es1. exists added. split; [done|].
        split; [simpl; lia|done]. }
  intros Hrun. by apply (Hgen gnodes edges0 edges).
Qed.

Lemma predictionNodes_length preds : (length (predictionNodes preds) ≤ 5)%nat.
Proof. unfold predictionNodes. rewrite length_map, length_take. lia. Qed.

(** X9: without API data the graph has one node for each of the first five
    predictions, in rank order, followed by at most three entity nodes per
    category of the prediction result; its edges are at most five
    parent-child edges between prediction nodes followed by at most three
    entity-icd edges per node. *)
Theorem X9_fallback_graph_size p nodes edges :
  GraphViewer None (Some p) = Ok (Graph nodes edges) →
  ∃ added hierarchy entity,
    nodes = predictionNodes (or_empty (icdPredictions p)) ++ added
    ∧ (length (predictionNodes (or_empty (icdPredictions p))) ≤ 5)%nat
    ∧ (∀ a, a ∈ added → fromEntities (or_empty (entities p)) a)
    ∧ (length added ≤ 3 * length (or_empty (entities p)))%nat
    ∧ edges = hierarchy ++ entity
    ∧ (∀ a, a ∈ hierarchy →
         parentChildShape a
         ∧ anchored (predictionNodes (or_empty (icdPredictions p))) a)
    ∧ (length hierarchy ≤ 5)%nat
    ∧ (∀ a, a ∈ entity → entityIcdShape nodes (or_empty (icdPredictions p)) a)
    ∧ (length entity ≤ 3 * length nodes)%nat.
Proof.
  unfold GraphViewer, fallbackGraph. intros Hrun.
  destruct (icdPredictions p) as [[|q preds]|] eqn:Hp; [done| |done].
  run_step Hrun es1 H1. run_step Hrun es2 H2.
  inversion Hrun; subst nodes edges; clear Hrun. simpl or_empty.
  pose proof (predictionNodes_length (q :: preds)) as Hfive.
  destruct (hierarchyEdges_fallback_added _ _ _ H1) as (hierarchy & -> & Hhl & Hhs).
  destruct (connectEntities_added _ _ _ _ H2) as (entity & -> & Hel & Hes).
  destruct (entities p) as [ents|]; simpl or_empty.
  - destruct (addEntityNodes_fallback_added ents (predictionNodes (q :: preds)))
      as (added & Heq & Horigin).
    pose proof (addEntityNodes_fallback_length ents (predictionNodes (q :: preds)))
      as Hlen.
    rewrite Heq in *. rewrite length_app in Hlen.
    exists added, hierarchy, entity.
    repeat split; try done; try lia; by apply Hhs.
  - exists [], hierarchy, entity. rewrite app_nil_r.
    repeat split; try done; try (simpl; lia); try by apply Hhs.
    intros a Ha. by apply elem_of_nil in Ha.
Qed.

Lemma X9_fallback_graph_size_witness :
  ∃ added hierarchy entity,
    single_entity_nodes
    = predictionNodes (or_empty (icdPredictions single_entity_prediction)) ++ added
    ∧ (length (predictionNodes (or_empty (icdPredictions single_entity_prediction)))
       ≤ 5)%nat
    ∧ (∀ a, a ∈ added →
         fromEntities (or_empty (entities single_entity_prediction)) a)
    ∧ (length added ≤ 3 * length (or_empty (entities single_entity_prediction)))%nat
    ∧ single_entity_edges = hierarchy ++ entity
    ∧ (∀ a, a ∈ hierarchy →
         parentChildShape a
         ∧ anchored
             (predictionNodes (or_empty (icdPredictions single_entity_prediction))) a)
    ∧ (length hierarchy ≤ 5)%nat
    ∧ (∀ a, a ∈ entity →
         entityIcdShape single_entity_nodes
           (or_empty (icdPredictions single_entity_prediction)) a)
    ∧ (length entity ≤ 3 * length single_entity_nodes)%nat.
Proof.
  apply (X9_fallback_graph_size single_entity_prediction).
  vm_compute. reflexivity.
Defined.

(** ** The two paths without API data *)

Lemma find_first_of_code (l : list Pred) k i q :
  NoDup (pred_code <$> take k l) → take k l !! i = Some q →
  List.find (fun x => bool_decide (pred_code x = pred_code q)) l = Some q.
Proof.
  revert k i. induction l as [|x l IH]; intros k i Hnd Hq.
  - by rewrite take_nil in Hq.
  - destruct k as [|k]; [done|]. simpl in Hnd, Hq.
    apply NoDup_cons in Hnd as [Hx Hnd]. destruct i as [|i]; simpl in Hq.
    + inversion Hq; subst x. simpl. by rewrite bool_decide_eq_true_2.
    + simpl. rewrite bool_decide_eq_false_2; [by eapply IH|].
      intros Heq. apply Hx. rewrite Heq.
      apply list_elem_of_fmap. exists q. split; [done|].
      by eapply list_elem_of_lookup_2.
Qed.

Lemma predictionNodes_ownPrediction p n :
  NoDup (pred_code <$> take 5 (or_empty (icdPredictions p))) →
  (∀ q, q ∈ take 5 (or_empty (icdPredictions p)) →
        startsWith (pred_code q) "entity_" = false) →
  n ∈ predictionNodes (or_empty (icdPredictions p)) → ownPrediction p n.
Proof.
  intros Hnd Hcodes Hn. unfold predictionNodes in Hn.
  apply list_elem_of_fmap in Hn as (q & -> & Hq). exists q. simpl.
  split; [done|]. split; [done|]. split; [|by apply Hcodes].
  apply list_elem_of_lookup_1 in Hq as [i Hi]. by eapply find_first_of_code.
Qed.

Lemma hierarchyEdges_paths_agree p gnodes l es :
  (∀ n, n ∈ l → ownPrediction p n) →
  NoDup (node_id <$> l) →
  (∀ e n, e ∈ es → n ∈ l → edge_target e ≠ node_id n) →
  forEachM (fun edges node =>
              match node_id node with
              | None => TypeError
              | Some id =>
                  let parts := split "." id in
                  if (1 <? length parts)%nat then
                    match findNode gnodes (Some (parentCode parts)) with
                    | Some _ =>
                        Ok (edges ++ [parentChildEdge (parentCode parts) (Some id)
                                        (opt_or_default (node_probability node) 0.5)])
                    | None => Ok edges
                    end
                  else Ok edges
              end) l es
  = Ok (fold_left (fun edges node =>
               match node_id node with
               | None => edges
               | Some id =>
                   if negb (bool_decide (id = "")) && negb (startsWith id "entity_") then
                     let parts := split "." id in
                     if (1 <? length parts)%nat then
                       match findNode gnodes (Some (parentCode parts)) with
                       | Some _ =>
                           if existsb (fun e => strict_eq (edge_source e) (Some (parentCode parts))
                                                && strict_eq (edge_target e) (Some id)) edges
                           then edges
                           else edges ++
                                [parentChildEdge (parentCode parts) (Some id)
                                   (opt_or_default
                                      (pred_probability <$> findPred (Some p) id) 0.5)]
                       | None => edges
                       end
                     else edges
                   else edges
               end) l es).
Proof.
  revert es. induction l as [|n l IH]; intros es Hown Hnd Htargets; [done|].
  simpl. simpl in Hnd. apply NoDup_cons in Hnd as [Hn Hnd].
  destruct (Hown n) as (q & Hid & Hprob & Hfind & Hpre); [left|].
  unfold findPred in Hfind.
  rewrite Hid, Hprob. cbv beta iota zeta. rewrite Hpre. simpl negb.
  rewrite andb_true_r, Hfind. simpl fmap.
  assert (Hex : existsb (fun e => strict_eq (edge_source e)
                                    (Some (parentCode (split "." (pred_code q))))
                                  && strict_eq (edge_target e) (Some (pred_code q))) es
                = false).
  { destruct (existsb _ es) eqn:Hex; [|done].
    apply existsb_exists in Hex as (e & He & Hb).
    apply andb_prop in Hb as [_ Ht]. apply bool_decide_eq_true in Ht.
    exfalso. apply (Htargets e n); [by apply list_elem_of_In|left|congruence]. }
  assert (Hrest : ∀ es' : list Edge, (∀ e, e ∈ es' → e ∈ es ∨ edge_target e = Some (pred_code q)) →
            ∀ e n', e ∈ es' → n' ∈ l → edge_target e ≠ node_id n').
  { intros es' Hes' e n' He Hn'. destruct (Hes' e He) as [Hold|Hnew].
    - apply Htargets; [done|by right].
    - rewrite Hnew, <- Hid. intros Heq. apply Hn. rewrite Heq.
      by apply list_elem_of_fmap_2. }
  destruct (Nat.ltb_spec 1 (length (split "." (pred_code q)))) as [Hdot|Hdot].
  - destruct (bool_decide (pred_code q = "")) eqn:Hempty.
    { apply bool_decide_eq_true in Hempty. rewrite Hempty in Hdot.
      simpl in Hdot. lia. }
    simpl negb. cbv iota.
    destruct (findNode gnodes _) as [parent|].
    + rewrite Hex. simpl. apply IH; [by intros n' Hn'; apply Hown; right|done|].
      apply Hrest. intros e He. apply elem_of_app in He as [He|He]; [by left|].
      apply list_elem_of_singleton in He as ->. by right.
    + simpl. apply IH; [by intros n' Hn'; apply Hown; right|done|].
      apply Hrest. auto.
  - assert (Hsame : (if negb (bool_decide (pred_code q = "")) then es else es) = es)
      by (by destruct (negb _)).
    rewrite Hsame. simpl. apply IH; [by intros n' Hn'; apply Hown; right|done|].
    apply Hrest. auto.
Qed.

Lemma hierarchyEdges_fallback_agrees p gnodes :
  (∀ n, n ∈ gnodes → ownPrediction p n) →
  NoDup (node_id <$> gnodes) →
  hierarchyEdges_fallback gnodes [] = Ok (hierarchyEdges (Some p) gnodes []).
Proof.
  intros Hown Hnd. unfold hierarchyEdges_fallback, hierarchyEdges.
  apply hierarchyEdges_paths_agree; [done|done|].
  intros e n He. by apply elem_of_nil in He.
Qed.

Lemma addEntityNodes_paths_agree ents nodes :
  NoDup ((node_id <$> nodes) ++ entityIds ents) →
  addEntityNodes ents nodes = addEntityNodes_fallback ents nodes.
Proof.
  unfold addEntityNodes, addEntityNodes_fallback. revert nodes.
  induction ents as [|[type labels] ents IH]; intros nodes Hnd; [done|].
  simpl fold_left. simpl entityIds in Hnd.
  assert (Hinner : ∀ (l : list string) ns rest,
            NoDup ((node_id <$> ns)
                   ++ map (fun entity => Some (entityNodeId type entity)) l ++ rest) →
            fold_left (fun nodes entity =>
                         match findNode nodes (Some (entityNodeId type entity)) with
                         | Some _ => nodes
                         | None => nodes ++ [entityNode type entity]
                         end) l ns
            = fold_left (fun nodes entity => nodes ++ [entityNode type entity]) l ns
            ∧ NoDup ((node_id <$> fold_left
                                    (fun nodes entity => nodes ++ [entityNode type entity])
                                    l ns) ++ rest)).
  { induction l as [|x l IHl]; intros ns rest Hl; simpl; [done|].
    simpl in Hl.
    assert (Hfresh : findNode ns (Some (entityNodeId type x)) = None).
    { destruct (findNode ns _) as [m|] eqn:Hfind; [|done].
      apply findNode_Some in Hfind as [Hm Hmid].
      apply NoDup_app in Hl as (_ & Hdisj & _). exfalso.
      apply (Hdisj (Some (entityNodeId type x))).
      - rewrite <- Hmid. by apply list_elem_of_fmap_2.
      - left. }
    rewrite Hfresh. apply IHl.
    rewrite fmap_app, <- app_assoc. exact Hl. }
  destruct (Hinner (take 3 (or_empty labels)) nodes (entityIds ents)) as [-> Hnd'].
  { exact Hnd. }
  by apply IH.
Qed.

(** X10: the graph data that the failed fetch puts into the state makes
    the component build the same graph as no graph data at all, provided
    that the node identifiers made from the prediction result (the codes of
    the first five predictions and the ids of the entity nodes) are pairwise
    distinct and none of these codes starts with "entity_". *)
Theorem X10_catch_path_agrees p :
  NoDup (predictionIds p) →
  (∀ q, q ∈ take 5 (or_empty (icdPredictions p)) →
        startsWith (pred_code q) "entity_" = false) →
  GraphViewer (Some (catchGraphData p)) (Some p) = GraphViewer None (Some p).
Proof.
  unfold predictionIds. intros Hnd Hcodes.
  unfold GraphViewer, catchGraphData. cbn [gd_nodes].
  destruct (predictionNodes (or_empty (icdPredictions p))) as [|n ns] eqn:Hnodes;
    [done|].
  rewrite <- Hnodes. unfold apiGraph, fallbackGraph.
  cbn [gd_entities gd_edges or_empty predictionList].
  destruct (icdPredictions p) as [[|q preds]|] eqn:Hp; [done| |done].
  cbn [or_empty] in *.
  assert (Hids : node_id <$> predictionNodes (q :: preds)
                 = map (fun q => Some (pred_code q)) (take 5 (q :: preds))).
  { unfold predictionNodes. rewrite <- list_fmap_compose. done. }
  assert (Hnodes_eq :
    addEntityNodes (or_empty (entities p)) (predictionNodes (q :: preds))
    = match entities p with
      | Some ents => addEntityNodes_fallback ents (predictionNodes (q :: preds))
      | None => predictionNodes (q :: preds)
      end).
  { rewrite addEntityNodes_paths_agree by (by rewrite Hids).
    by destruct (entities p). }
  rewrite Hnodes_eq.
  assert (Hcodes_nd : NoDup (pred_code <$> take 5 (q :: preds))).
  { apply NoDup_app in Hnd as (Hnd & _ & _).
    apply (NoDup_fmap_1 Some). by rewrite <- list_fmap_compose. }
  rewrite (hierarchyEdges_fallback_agrees p (predictionNodes (q :: preds))).
  - reflexivity.
  - intros m Hm. apply predictionNodes_ownPrediction; rewrite ?Hp; auto.
  - rewrite Hids. by apply NoDup_app in Hnd as (Hnd & _ & _).
Qed.

Lemma X10_catch_path_agrees_witness :
  GraphViewer (Some (catchGraphData example_prediction)) (Some example_prediction)
  = GraphViewer None (Some example_prediction).
Proof.
  apply (X10_catch_path_agrees example_prediction).
  - vm_compute. repeat constructor; set_solver.
  - intros q Hq. vm_compute in Hq.
    repeat (apply elem_of_cons in Hq as [->|Hq]); [reflexivity..|].
    by apply elem_of_nil in Hq.
Defined.

(** ** The component without API data, from the props to the drawing *)


(** ** The range of the edge weights *)

Lemma SFleb_trans (a b c : spec_float) :
  SFleb a b = true → SFleb b c = true → SFleb a c = true.
Proof.
  unfold SFleb.
  destruct a as [sa|sa| |sa ma ea], b as [sb|sb| |sb mb eb],
           c as [sc|sc| |sc mc ec]; simpl; try done;
    try (by destruct sa); try (by destruct sb); try (by destruct sc);
    try (by destruct sa, sb); try (by destruct sb, sc); try (by destruct sa, sc);
    try (by destruct sa, sb, sc).
  change (PosDef.Pos.compare_cont Eq ma mb) with (Pos.compare ma mb).
  change (PosDef.Pos.compare_cont Eq mb mc) with (Pos.compare mb mc).
  change (PosDef.Pos.compare_cont Eq ma mc) with (Pos.compare ma mc).
  destruct sa, sb, sc; try done;
    destruct (Z.compare_spec ea eb), (Z.compare_spec eb ec),
             (Z.compare_spec ea ec); try done; try lia;
    destruct (Pos.compare_spec ma mb), (Pos.compare_spec mb mc),
             (Pos.compare_spec ma mc); simpl; try done; lia.
Qed.

Lemma leb_trans (a b c : float) :
  PrimFloat.leb a b = true → PrimFloat.leb b c = true → PrimFloat.leb a c = true.
Proof. rewrite !FloatAxioms.leb_spec. apply SFleb_trans. Qed.

Lemma truthy_not_nan (x : float) : truthy x = true → is_nan x = false.
Proof. unfold truthy. destruct (PrimFloat.is_zero x), (is_nan x); done. Qed.

Lemma Math_min_bounds (a b : float) :
  is_nan a = false → is_nan b = false →
  PrimFloat.leb (Math_min a b) a = true ∧ PrimFloat.leb (Math_min a b) b = true.
Proof.
  intros Ha Hb. unfold Math_min. rewrite Ha, Hb. simpl.
  destruct (PrimFloat.ltb a b) eqn:Hab; [by split; [apply leb_refl|apply ltb_leb]|].
  destruct (PrimFloat.ltb b a) eqn:Hba; [by split; [apply ltb_leb|apply leb_refl]|].
  destruct (get_sign a).
  - by split; [apply leb_refl|apply not_ltb_leb].
  - by split; [apply not_ltb_leb|apply leb_refl].
Qed.

Lemma Math_max_bounds (a b : float) :
  is_nan a = false → is_nan b = false →
  PrimFloat.leb a (Math_max a b) = true ∧ PrimFloat.leb b (Math_max a b) = true.
Proof.
  intros Ha Hb. unfold Math_max. rewrite Ha, Hb. simpl.
  destruct (PrimFloat.ltb a b) eqn:Hab; [by split; [apply ltb_leb|apply leb_refl]|].
  destruct (PrimFloat.ltb b a) eqn:Hba; [by split; [apply leb_refl|apply ltb_leb]|].
  destruct (get_sign a).
  - by split; [apply not_ltb_leb|apply leb_refl].
  - by split; [apply leb_refl|apply not_ltb_leb].
Qed.

Lemma Math_min_fold (values : list float) (acc : float) :
  is_nan acc = false → (∀ x, x ∈ values → is_nan x = false) →
  PrimFloat.leb (fold_left Math_min values acc) acc = true
  ∧ ∀ x, x ∈ values → PrimFloat.leb (fold_left Math_min values acc) x = true.
Proof.
  revert acc. induction values as [|v values IH]; intros acc Hacc Hvalues; simpl.
  - split; [by apply leb_refl|]. intros x Hx. by apply elem_of_nil in Hx.
  - destruct (Math_min_bounds acc v) as [Hle_acc Hle_v]; [done|apply Hvalues; left|].
    destruct (IH (Math_min acc v)) as [Hfold Hrest].
    { by destruct (leb_not_nan _ _ Hle_acc). }
    { intros x Hx. apply Hvalues. by right. }
    split; [by eapply leb_trans|].
    intros x Hx. apply elem_of_cons in Hx as [->|Hx]; [by eapply leb_trans|auto].
Qed.

Lemma Math_max_fold (values : list float) (acc : float) :
  is_nan acc = false → (∀ x, x ∈ values → is_nan x = false) →
  PrimFloat.leb acc (fold_left Math_max values acc) = true
  ∧ ∀ x, x ∈ values → PrimFloat.leb x (fold_left Math_max values acc) = true.
Proof.
  revert acc. induction values as [|v values IH]; intros acc Hacc Hvalues; simpl.
  - split; [by apply leb_refl|]. intros x Hx. by apply elem_of_nil in Hx.
  - destruct (Math_max_bounds acc v) as [Hle_acc Hle_v]; [done|apply Hvalues; left|].
    destruct (IH (Math_max acc v)) as [Hfold Hrest].
    { by destruct (leb_not_nan _ _ Hle_acc). }
    { intros x Hx. apply Hvalues. by right. }
    split; [by eapply leb_trans|].
    intros x Hx. apply elem_of_cons in Hx as [->|Hx]; [by eapply leb_trans|auto].
Qed.

Lemma effectiveWeight_truthy e : truthy (effectiveWeight e) = true.
Proof. unfold effectiveWeight. by apply opt_or_default_truthy. Qed.

(** X12: the range of weights that [renderGraph] computes.  Whatever the
    weights of the edges are (a missing weight, [0] and [NaN] count as
    [0.5]), [minWeight] is at most [0.1] and at most the weight of every
    edge, and [maxWeight] is at least [1] and at least the weight of every
    edge; in particular neither is [NaN]. *)
Theorem X12_weight_range_covers_edges (edges : list Edge) :
  let weights := map effectiveWeight edges in
  let minWeight := Math_min_of (weights ++ [0.1%float]) in
  let maxWeight := Math_max_of (weights ++ [1.0%float]) in
  PrimFloat.leb minWeight 0.1 = true
  ∧ PrimFloat.leb 1.0 maxWeight = true
  ∧ ∀ e, e ∈ edges →
         PrimFloat.leb minWeight (effectiveWeight e) = true
         ∧ PrimFloat.leb (effectiveWeight e) maxWeight = true.
Proof.
  intros weights minWeight maxWeight.
  assert (Hweights : ∀ x d, is_nan d = false → x ∈ weights ++ [d] → is_nan x = false).
  { intros x d Hd Hx. apply elem_of_app in Hx as [Hx|Hx].
    - apply list_elem_of_fmap in Hx as (e & -> & _).
      apply truthy_not_nan, effectiveWeight_truthy.
    - by apply list_elem_of_singleton in Hx as ->. }
  destruct (Math_min_fold (weights ++ [0.1%float]) infinity) as [_ Hmin];
    [done|intros x; by apply Hweights|].
  destruct (Math_max_fold (weights ++ [1.0%float]) neg_infinity) as [_ Hmax];
    [done|intros x; by apply Hweights|].
  split; [apply Hmin, elem_of_app; right; left|].
  split; [apply Hmax, elem_of_app; right; left|].
  intros e He.
  assert (Hw : effectiveWeight e ∈ weights) by (by apply list_elem_of_fmap_2).
  split; [apply Hmin|apply Hmax]; apply elem_of_app; by left.
Qed.

(** ** The radius of a node *)

Lemma startsWith_entityNodeId type entity :
  startsWith (entityNodeId type entity) "entity_" = true.
Proof.
  unfold startsWith, entityNodeId.
  change ("entity_" +:+ type +:+ "_" +:+ entity)
    with (String "e" (String "n" (String "t" (String "i" (String "t" (String "y"
           (String "_" (type +:+ "_" +:+ entity)))))))).
  cbn. by destruct (type +:+ "_" +:+ entity).
Qed.

(** X13: without graph data, when the codes of the first five predictions
    are pairwise distinct, not empty and none starts with "entity_", the
    radius that [getNodeSize] gives a node of the built graph is fixed by the
    node's own [probability] field: 20 + 20 * probability for a prediction
    node, 16 for an entity node, which has no probability. *)
Theorem X13_radius_from_own_probability p nodes edges n :
  GraphViewer None (Some p) = Ok (Graph nodes edges) →
  NoDup (pred_code <$> take 5 (or_empty (icdPredictions p))) →
  (∀ q, q ∈ take 5 (or_empty (icdPredictions p)) →
        pred_code q ≠ "" ∧ startsWith (pred_code q) "entity_" = false) →
  n ∈ nodes →
  getNodeSize n (Some p)
  = match node_probability n with
    | Some probability => (20 + probability * 20)%float
    | None => 16%float
    end.
Proof.
  unfold GraphViewer, fallbackGraph. intros Hrun Hnd Hcodes Hn.
  destruct (icdPredictions p) as [[|q0 preds]|] eqn:Hp; [done| |done].
  run_step Hrun es1 H1. run_step Hrun es2 H2.
  inversion Hrun; subst nodes edges; clear Hrun. simpl or_empty in *.
  assert (Hpred : n ∈ predictionNodes (q0 :: preds) →
                  getNodeSize n (Some p)
                  = match node_probability n with
                    | Some probability => (20 + probability * 20)%float
                    | None => 16%float
                    end).
  { intros Hin.
    assert (Hq : ∃ q, q ∈ take 5 (q0 :: preds) ∧ node_id n = Some (pred_code q)
                      ∧ node_probability n = Some (pred_probability q)).
    { unfold predictionNodes in Hin.
      apply list_elem_of_fmap in Hin as (q & -> & Hq). by exists q. }
    destruct Hq as (q & Hq & Hid & Hprob).
    destruct (Hcodes q Hq) as [Hne Hpre].
    apply list_elem_of_lookup_1 in Hq as [i Hi].
    pose proof (find_first_of_code (q0 :: preds) 5 i q Hnd Hi) as Hfind.
    unfold getNodeSize, findPred. rewrite Hid, Hprob, Hp. simpl or_empty.
    rewrite Hfind, Hpre. by rewrite bool_decide_eq_false_2. }
  destruct (entities p) as [ents|]; [|auto].
  destruct (addEntityNodes_fallback_added ents (predictionNodes (q0 :: preds)))
    as (added & Heq & Horigin).
  rewrite Heq in Hn. apply elem_of_app in Hn as [Hn|Hn]; [auto|].
  destruct (Horigin n Hn) as (type & labels & label & _ & _ & ->).
  unfold getNodeSize. cbn [entityNode node_id node_probability].
  by rewrite startsWith_entityNodeId, andb_false_r.
Qed.

Lemma X13_radius_from_own_probability_witness :
  ∃ n, n ∈ example_nodes ∧ node_probability n = Some 0.9%float
       ∧ getNodeSize n (Some example_prediction) = (20 + 0.9 * 20)%float.
Proof.
  exists {| node_id := Some "410.71"; node_label := Some "d1";
            node_type := Some "icd"; node_level := Some 2%nat;
            node_probability := Some 0.9%float |}.
  split; [left|]. split; [reflexivity|].
  apply (X13_radius_from_own_probability example_prediction example_nodes
           example_edges).
  - vm_compute. reflexivity.
  - vm_compute. repeat constructor; set_solver.
  - intros q Hq. vm_compute in Hq.
    repeat (apply elem_of_cons in Hq as [->|Hq]); [by split..|].
    by apply elem_of_nil in Hq.
  - left.
Defined.

(** ** Edges that touch no node *)





Section UntouchedLayout.

Variables Math_cos Math_sin : float → float.




End UntouchedLayout.



(** ** A canvas narrower than two margins *)





(** ** The component with API data, from the state to the drawing *)


